(** * Orpheus: handler registry, query routing and the Gemini retry client

    A shallow embedding of the Python package [orpheus]:

    - [orpheus/models/response.py]        the [HandlerResponse] dataclass;
    - [orpheus/services/gemini_client.py] [query], the retrying API client;
    - [orpheus/query_handlers/*.py]       [GitHandler], [SystemHandler],
                                          [ChatHandler] behind [BaseHandler];
    - [orpheus/orpheus_core.py]           [_load_handlers] and [route_query].

    Python text is a [string] of bytes (UTF-8), so the order on strings is
    the order of code points that Python uses.  Effectful code lives in the
    monad [Py]: a state transformer over the [World] that may end in a
    raised exception.  Console output ([print]) is not part of the model. *)

From Stdlib Require Import ZArith List Ascii String Sorted Permutation Lia.
From stdpp Require Import base decidable option list sorting strings gmap pretty.

Local Open Scope Z_scope.

(** ** Python text helpers *)

Definition dquote : string := String (ascii_of_nat 34) EmptyString.
Definition nl : string := String (ascii_of_nat 10) EmptyString.

(** [str.lower] on the ASCII range: [A]-[Z] are mapped to [a]-[z], every
    other byte is kept.  The handlers compare the result with ASCII
    keywords made of letters that no character outside ASCII lowers to. *)
Definition ascii_lower (c : ascii) : ascii :=
  let n := nat_of_ascii c in
  if (65 <=? n)%nat && (n <=? 90)%nat then ascii_of_nat (n + 32) else c.

Fixpoint lower (s : string) : string :=
  match s with
  | EmptyString => EmptyString
  | String c s' => String (ascii_lower c) (lower s')
  end.

(** [needle in haystack] for two [str]. *)
Fixpoint str_contains (needle haystack : string) : bool :=
  String.prefix needle haystack ||
  match haystack with
  | EmptyString => false
  | String _ rest => str_contains needle rest
  end.

(** [x in [a, b, ...]] for a list of [str]. *)
Definition str_in_list (x : string) (l : list string) : bool :=
  existsb (String.eqb x) l.

(** ASCII white space as [str.strip] sees it: TAB..CR, FS..US and SPACE. *)
Definition is_space (c : ascii) : bool :=
  let n := nat_of_ascii c in
  ((9 <=? n)%nat && (n <=? 13)%nat) || ((28 <=? n)%nat && (n <=? 32)%nat).

Fixpoint lstrip (s : string) : string :=
  match s with
  | EmptyString => EmptyString
  | String c s' => if is_space c then lstrip s' else s
  end.

Fixpoint rstrip (s : string) : string :=
  match s with
  | EmptyString => EmptyString
  | String c s' =>
      match rstrip s' with
      | EmptyString => if is_space c then EmptyString else String c EmptyString
      | r => String c r
      end
  end.

Definition strip (s : string) : string := rstrip (lstrip s).

(** Truth value of a [str | None]: [None] and the empty string are falsy. *)
Definition truthy (o : option string) : bool :=
  match o with
  | Some s => negb (String.eqb s "")
  | None => false
  end.

(** ** models/response.py *)

(** The values a [metadata] entry is given ([Any]): [None], integers and
    strings, a part of Python's values on which [==] is equality of the
    values themselves. *)
Inductive PyValue : Type :=
  | PyNone
  | PyInt (z : Z)
  | PyStr (s : string).

#[global] Instance PyValue_eq_dec : EqDecision PyValue.
Proof. solve_decision. Defined.

Record HandlerResponse : Type := mkHandlerResponse {
  status : string;
  display_message : string;
  metadata : gmap string PyValue
}.

#[global] Instance HandlerResponse_eq_dec : EqDecision HandlerResponse.
Proof. solve_decision. Defined.

(** [HandlerResponse(status=..., display_message=...)]: [metadata] is left
    to [default_factory=dict]. *)
Definition HandlerResponse_ (st msg : string) : HandlerResponse :=
  {| status := st; display_message := msg; metadata := ∅ |}.

(** ** JSON documents, as [response.json()] returns them *)

#[local] Unset Elimination Schemes.
Inductive json : Type :=
  | JNull
  | JBool (b : bool)
  | JNumber (literal : string)
  | JStr (s : string)
  | JArr (items : list json)
  | JObj (members : list (string * json)).
#[local] Set Elimination Schemes.

(** ** Exceptions and the HTTP transport *)

(** A response of the server: its status line and its body as
    [response.json()] parses it (responses whose body is no JSON document
    are not modelled). *)
Record Response : Type := mkResponse {
  status_code : Z;
  reason : string;
  body : json
}.

Inductive PyExc : Type :=
  | RequestException (response : option Response) (text : string)
  | KeyError
  | IndexError
  | TypeError
  | AttributeError
  | FrozenInstanceError
  | CalledProcessError (stderr : string)
  | FileNotFoundError
  | OtherError (name : string).

Inductive Outcome (A : Type) : Type :=
  | Returned (a : A)
  | Raised (e : PyExc).
Arguments Returned {A} a.
Arguments Raised {A} e.

(** What one call of [requests.post] does: it hands back a response or
    raises (a connection failure is a [RequestException] without
    response). *)
Definition PostOutcome : Type := Outcome Response.

(** ** The world the program runs in *)

Inductive Event : Type :=
  | requests_post (url prompt : string) (timeout : Z)
  | time_sleep (seconds : Z)
  | os_system (command : string)
  | subprocess_run (argv : list string).

Record World : Type := mkWorld {
  GEMINI_API_KEY : option string;      (* config.GEMINI_API_KEY *)
  platform_system : string;            (* platform.system() *)
  git_diff_staged : Outcome string;    (* stdout of git diff --staged *)
  transport : nat -> PostOutcome;      (* outcome of the n-th request *)
  sent : nat;                          (* requests issued so far *)
  trace : list Event                   (* effects so far, oldest first *)
}.

Definition emit (ev : Event) (w : World) : World :=
  {| GEMINI_API_KEY := GEMINI_API_KEY w;
     platform_system := platform_system w;
     git_diff_staged := git_diff_staged w;
     transport := transport w;
     sent := sent w;
     trace := trace w ++ [ev] |}.

Definition count_request (w : World) : World :=
  {| GEMINI_API_KEY := GEMINI_API_KEY w;
     platform_system := platform_system w;
     git_diff_staged := git_diff_staged w;
     transport := transport w;
     sent := S (sent w);
     trace := trace w |}.

(** ** The monad of Python computations *)

(** A computation over a state [S] that returns a value or raises.  The
    program itself runs over the [World]; the routing code is also run
    over a world paired with a log of method calls (see [spy]). *)
Definition PyM (St A : Type) : Type := St -> Outcome A * St.
Abbreviation Py := (PyM World).

Definition ret {St A} (a : A) : PyM St A := fun s => (Returned a, s).
Definition raise {St A} (e : PyExc) : PyM St A := fun s => (Raised e, s).
Definition bind {St A B} (m : PyM St A) (k : A -> PyM St B) : PyM St B :=
  fun s =>
    match m s with
    | (Returned a, s') => k a s'
    | (Raised e, s') => (Raised e, s')
    end.

(** [try: m  except ...: handler e]; a handler answering [None] does not
    match the exception, which then keeps propagating. *)
Definition try_except {St A} (m : PyM St A) (handler : PyExc -> option (PyM St A)) : PyM St A :=
  fun s =>
    match m s with
    | (Returned a, s') => (Returned a, s')
    | (Raised e, s') =>
        match handler e with
        | Some h => h s'
        | None => (Raised e, s')
        end
    end.

Declare Scope py_scope.
Delimit Scope py_scope with py.
Notation "x <- m ;; k" := (bind m (fun x => k))
  (at level 100, m at next level, right associativity) : py_scope.
Notation "m ;;; k" := (bind m (fun _ => k))
  (at level 100, right associativity) : py_scope.

Definition lift {St A} (o : Outcome A) : PyM St A := fun s => (o, s).
Definition read {A} (f : World -> A) : Py A := fun w => (Returned (f w), w).
Definition effect (ev : Event) : Py unit := fun w => (Returned tt, emit ev w).

(** What one turn of a [for] loop body decides. *)
Inductive Step (A : Type) : Type :=
  | Continue
  | Return (a : A).
Arguments Continue {A}.
Arguments Return {A} a.

(** [for x in items: body(x)] followed by the code after the loop. *)
Fixpoint for_each {St A X} (items : list X) (body : X -> PyM St (Step A))
    (after : PyM St A) : PyM St A :=
  match items with
  | [] => after
  | x :: rest =>
      (s <- body x ;;
       match s with
       | Return a => ret a
       | Continue => for_each rest body after
       end)%py
  end.

(** ** models/response.py, at the level of objects

    [HandlerResponse] above is the value a response carries.  This module
    models what [@dataclass(frozen=True)] generates for the class, on a
    store of objects: an instance holds its two strings and a reference
    to the [dict] that is its [metadata]. *)

Module response.

Definition loc : Type := nat.

(** The attributes of one instance; a slot is [None] once the attribute
    has been deleted. *)
Record Instance : Type := mkInstance {
  status_slot : option string;
  display_message_slot : option string;
  metadata_slot : option loc
}.

Record Store : Type := mkStore {
  instances : gmap loc Instance;
  dicts : gmap loc (gmap string PyValue)
}.

(** An attribute assignment [self.<field> = value]. *)
Inductive Assignment : Type :=
  | set_status (value : string)
  | set_display_message (value : string)
  | set_metadata (value : loc).

Inductive Field : Type := f_status | f_display_message | f_metadata.

(** What [object.__setattr__] and [object.__delattr__] do to the slots. *)
Definition assign (a : Assignment) (o : Instance) : Instance :=
  match a with
  | set_status v => mkInstance (Some v) (display_message_slot o) (metadata_slot o)
  | set_display_message v => mkInstance (status_slot o) (Some v) (metadata_slot o)
  | set_metadata d => mkInstance (status_slot o) (display_message_slot o) (Some d)
  end.

Definition unset (f : Field) (o : Instance) : Instance :=
  match f with
  | f_status => mkInstance None (display_message_slot o) (metadata_slot o)
  | f_display_message => mkInstance (status_slot o) None (metadata_slot o)
  | f_metadata => mkInstance (status_slot o) (display_message_slot o) None
  end.

Definition update_instance (self : loc) (f : Instance -> Instance) : PyM Store unit :=
  fun st =>
    match instances st !! self with
    | Some o => (Returned tt, mkStore (<[self := f o]> (instances st)) (dicts st))
    | None => (Raised AttributeError, st)
    end.

(** [__setattr__] and [__delattr__] as [@dataclass(frozen=...)] defines
    them for an instance of the class: with [frozen] set they raise, and
    otherwise they are the ones of [object]. *)
Definition dataclass_setattr (frozen : bool) (self : loc) (a : Assignment) :
    PyM Store unit :=
  if frozen then raise FrozenInstanceError
  else update_instance self (assign a).

Definition dataclass_delattr (frozen : bool) (self : loc) (f : Field) :
    PyM Store unit :=
  if frozen then raise FrozenInstanceError
  else update_instance self (unset f).

(** [HandlerResponse] is declared with [frozen=True]. *)
Definition __setattr__ : loc -> Assignment -> PyM Store unit := dataclass_setattr true.
Definition __delattr__ : loc -> Field -> PyM Store unit := dataclass_delattr true.

(** [dict()]: a new empty dictionary. *)
Definition new_dict : PyM Store loc :=
  fun st =>
    let d := fresh (dom (dicts st)) in
    (Returned d, mkStore (instances st) (<[d := ∅]> (dicts st))).

(** [HandlerResponse(status, display_message[, metadata])]: without a
    third argument [default_factory=dict] is called; a dictionary that is
    passed is stored as it is, not copied. *)
Definition __init__ (st_ msg : string) (metadata_arg : option loc) : PyM Store loc :=
  (d <- match metadata_arg with
        | Some d => ret d
        | None => new_dict
        end ;;
   fun st =>
     let self := fresh (dom (instances st)) in
     (Returned self,
      mkStore (<[self := mkInstance (Some st_) (Some msg) (Some d)]> (instances st))
        (dicts st)))%py.

(** [self.metadata] *)
Definition get_metadata (self : loc) : PyM Store loc :=
  fun st =>
    match instances st !! self ≫= metadata_slot with
    | Some d => (Returned d, st)
    | None => (Raised AttributeError, st)
    end.

(** [d[key] = value] on a dictionary. *)
Definition dict_setitem (d : loc) (key : string) (value : PyValue) : PyM Store unit :=
  fun st =>
    match dicts st !! d with
    | Some m => (Returned tt, mkStore (instances st) (<[d := <[key := value]> m]> (dicts st)))
    | None => (Raised TypeError, st)
    end.

(** The field values of an instance, as a reader of its three
    attributes sees them. *)
Definition view (st : Store) (self : loc) : option HandlerResponse :=
  o ← instances st !! self;
  s ← status_slot o;
  msg ← display_message_slot o;
  d ← metadata_slot o;
  m ← dicts st !! d;
  Some (mkHandlerResponse s msg m).

(** The generated [__eq__] for two instances of the class: the tuples of
    fields are compared, strings and dictionaries by their contents. *)
Definition __eq__ (self other : loc) : PyM Store bool :=
  fun st =>
    match view st self, view st other with
    | Some a, Some b =>
        (Returned (bool_decide (status a = status b)
                   && bool_decide (display_message a = display_message b)
                   && bool_decide (metadata a = metadata b)), st)
    | _, _ => (Raised AttributeError, st)
    end.

(** The generated [__hash__] ([eq] and [frozen] both set): the hash of
    the tuple of fields, the items hashed from left to right.  A [str]
    has a hash ([str_hash], seeded per process); a [dict] has none. *)
Definition hash_dict (d : loc) : PyM Store Z := raise TypeError.

Definition __hash__ (str_hash : string -> Z) (tuple_hash : list Z -> Z)
    (self : loc) : PyM Store Z :=
  fun st =>
    match instances st !! self with
    | Some (mkInstance (Some s) (Some msg) (Some d)) =>
        (let h1 := str_hash s in
         let h2 := str_hash msg in
         h3 <- hash_dict d ;;
         ret (tuple_hash [h1; h2; h3]))%py st
    | _ => (Raised AttributeError, st)
    end.

Definition empty_store : Store := mkStore ∅ ∅.

End response.

(** ** services/gemini_client.py *)

Module gemini_client.

(** [d[key]] on a parsed JSON value: a missing key is a [KeyError], a
    value that is no [dict] cannot be indexed by a [str]. *)
Fixpoint dict_get (key : string) (members : list (string * json)) : option json :=
  match members with
  | [] => None
  | (k, v) :: rest => if String.eqb key k then Some v else dict_get key rest
  end.

Definition subscript_key (key : string) (j : json) : Outcome json :=
  match j with
  | JObj members =>
      match dict_get key members with
      | Some v => Returned v
      | None => Raised KeyError
      end
  | _ => Raised TypeError
  end.

(** [x[0]]: the first item of a list, or the first character of a string
    (its first byte here; the client only ever subscripts the result by a
    key, which no string allows), [IndexError] when empty; on a [dict] the
    key [0] is never present (JSON keys are strings); other values cannot
    be subscripted. *)
Definition subscript_0 (j : json) : Outcome json :=
  match j with
  | JArr (x :: _) => Returned x
  | JArr [] => Raised IndexError
  | JStr (String c _) => Returned (JStr (String c EmptyString))
  | JStr EmptyString => Raised IndexError
  | JObj _ => Raised KeyError
  | _ => Raised TypeError
  end.

(** [answer.strip()]: only a [str] has the method. *)
Definition str_strip (j : json) : Outcome string :=
  match j with
  | JStr s => Returned (strip s)
  | _ => Raised AttributeError
  end.

Definition api_url (api_key : string) : string :=
  "https://generativelanguage.googleapis.com/v1beta/models/gemini-2.5-pro:generateContent?key="
  +:+ api_key.

(** [requests.post(api_url, headers=headers, json=data, timeout=120)]:
    one blocking network call, answered by the transport. *)
Definition post (url prompt : string) : Py Response :=
  fun w =>
    (transport w (sent w), count_request (emit (requests_post url prompt 120) w)).

(** [response.raise_for_status()] of the requests library: an
    [HTTPError] carrying the response for every status in 400..599. *)
Definition http_error_msg (url : string) (r : Response) : option string :=
  if (400 <=? status_code r) && (status_code r <? 500) then
    Some (pretty (status_code r) +:+ " Client Error: " +:+ reason r
          +:+ " for url: " +:+ url)
  else if (500 <=? status_code r) && (status_code r <? 600) then
    Some (pretty (status_code r) +:+ " Server Error: " +:+ reason r
          +:+ " for url: " +:+ url)
  else None.

Definition raise_for_status (url : string) (r : Response) : Py unit :=
  match http_error_msg url r with
  | Some msg => raise (RequestException (Some r) msg)
  | None => ret tt
  end.

(** [e.response is not None and 500 <= e.response.status_code < 600] *)
Definition is_server_error (response : option Response) : bool :=
  match response with
  | Some r => (500 <=? status_code r) && (status_code r <? 600)
  | None => false
  end.

Definition max_retries : nat := 3.
Definition base_delay : Z := 1.

Definition config_error : string := "GEMINI_API_KEY not found in configuration.".
Definition communication_error (e : string) : string :=
  "Error communicating with the Gemini API: " +:+ e.
Definition format_error : string := "Unexpected response format from the Gemini API.".
Definition unavailable_error : string :=
  "The Gemini server remains unavailable after several attempts.".

Definition range (n : nat) : list Z := map Z.of_nat (seq 0 n).

Definition Answer : Type := option string * option string.

(** The [try] block of one attempt. *)
Definition attempt_request (url prompt : string) : Py (Step Answer) :=
  (response <- post url prompt ;;
   raise_for_status url response ;;;
   let json_response := body response in
   candidates <- lift (subscript_key "candidates" json_response) ;;
   candidate <- lift (subscript_0 candidates) ;;
   content <- lift (subscript_key "content" candidate) ;;
   parts <- lift (subscript_key "parts" content) ;;
   part <- lift (subscript_0 parts) ;;
   answer <- lift (subscript_key "text" part) ;;
   stripped <- lift (str_strip answer) ;;
   ret (Return (Some stripped, None)))%py.

(** The two [except] clauses of one attempt. *)
Definition on_exception (attempt : Z) (e : PyExc) : option (Py (Step Answer)) :=
  match e with
  | RequestException response text =>
      Some (if is_server_error response then
              (effect (time_sleep (base_delay * 2 ^ attempt)) ;;; ret Continue)%py
            else ret (Return (None, Some (communication_error text))))
  | KeyError | IndexError => Some (ret (Return (None, Some format_error)))
  | _ => None
  end.

Definition attempt_body (url prompt : string) (attempt : Z) : Py (Step Answer) :=
  try_except (attempt_request url prompt) (on_exception attempt).

Definition query (prompt : string) : Py Answer :=
  (api_key <- read GEMINI_API_KEY ;;
   match api_key with
   | Some key =>
       if String.eqb key "" then ret (None, Some config_error)
       else
         for_each (range max_retries) (attempt_body (api_url key) prompt)
                  (ret (None, Some unavailable_error))
   | None => ret (None, Some config_error)
   end)%py.

End gemini_client.

(** ** query_handlers/base_handler.py *)

(** A handler object: its class name, whether it is an instance of
    [ChatHandler] (the class or a subclass), and the two methods of the
    [BaseHandler] contract. *)
Record BaseHandler (St : Type) : Type := mkHandler {
  class_name : string;
  isinstance_ChatHandler : bool;
  can_handle : string -> PyM St bool;
  process : string -> PyM St HandlerResponse
}.
Arguments mkHandler {St} _ _ _ _.
Arguments class_name {St} _.
Arguments isinstance_ChatHandler {St} _.
Arguments can_handle {St} _ _.
Arguments process {St} _ _.

(** ** query_handlers/git_handler.py *)

Module GitHandler.

Definition can_handle (query : string) : Py bool :=
  let query := lower query in
  ret (str_contains "commit msg" query).

Definition _get_staged_diff : Py (option string * option string) :=
  try_except
    (effect (subprocess_run ["git"; "diff"; "--staged"]) ;;;
     stdout <- (fun w => (git_diff_staged w, w)) ;;
     if String.eqb stdout "" then
       ret (None, Some "There are no changes staged. Use 'git add <file>' first.")
     else ret (Some stdout, None))%py
    (fun e =>
       match e with
       | CalledProcessError stderr =>
           Some (ret (None, Some ("Error executing git diff: " +:+ stderr)))
       | FileNotFoundError =>
           Some (ret (None, Some "Command 'git' not found. This handler must be run inside a Git repository."))
       | _ => None
       end).

Definition _build_prompt (diff_text : string) : string :=
  nl +:+
  "        As Orpheus, an expert software engineering assistant, your task is to generate a precise and complete commit message based on the provided 'git diff'." +:+
  nl +:+ nl +:+ "        RULES:" +:+ nl +:+
  "        1.  Strictly follow the " +:+ dquote +:+
  "Conventional Commits" +:+ dquote +:+ " standard." +:+ nl +:+
  "        2.  The final output must be only the commit message itself." +:+
  nl +:+ "        3.  The message must have the following structure:" +:+
  nl +:+ "            <type>(<scope>): <subject>" +:+ nl +:+
  "            <blank line>" +:+ nl +:+
  "            [optional body: explain the 'why' and 'how' of the change in more detail.]" +:+
  nl +:+ "            <blank line>" +:+ nl +:+
  "            [optional footer: for referencing issues, e.g., 'Closes #123'.]" +:+
  nl +:+
  "        4.  The subject line must be in lowercase and not end with a period." +:+
  nl +:+
  "        5.  The message must focus on the *intent* of the change." +:+
  nl +:+ nl +:+
  "        Based on the following diff, generate the complete commit message:" +:+
  nl +:+ "        ---" +:+ nl +:+ "        " +:+
  diff_text +:+
  nl +:+ "        ---" +:+ nl +:+ "        ".

Definition rule : string := "--------------------------------------".

Definition process (query : string) : Py HandlerResponse :=
  (staged <- _get_staged_diff ;;
   let '(diff_text, error) := staged in
   if truthy error then
     ret (HandlerResponse_ "failed" (default "" error))
   else
     let full_prompt := _build_prompt (default "None" diff_text) in
     reply <- gemini_client.query full_prompt ;;
     let '(suggestion, error) := reply in
     if truthy error then
       ret (HandlerResponse_ "failed" (default "" error))
     else
       let display_message :=
         nl +:+ "🎶 AI-Generated Commit Suggestion:" +:+ nl +:+ nl +:+
         rule +:+ nl +:+
         default "None" suggestion +:+ nl +:+
         rule +:+ nl in
       ret (HandlerResponse_ "success" display_message))%py.

Definition handler : BaseHandler World :=
  mkHandler "GitHandler" false can_handle process.

End GitHandler.

(** ** query_handlers/system_handler.py *)

Module SystemHandler.

Definition can_handle (query : string) : Py bool :=
  let query := lower query in
  ret (str_in_list query ["cls"]).

Definition _clear_screen : Py string :=
  (system <- read platform_system ;;
   let command := if String.eqb system "Windows" then "cls" else "clear" in
   effect (os_system command) ;;;
   ret "Terminal screen has been cleared.")%py.

Definition process (query : string) : Py HandlerResponse :=
  (message <- _clear_screen ;;
   ret (HandlerResponse_ "success" ("🎶 " +:+ message)))%py.

Definition handler : BaseHandler World :=
  mkHandler "SystemHandler" false can_handle process.

End SystemHandler.

(** ** query_handlers/chat_handler.py *)

Module ChatHandler.

Definition can_handle (query : string) : Py bool := ret true.

Definition _build_personality_prompt (query : string) : string :=
  "You are Orpheus, a wise and articulate AI assistant to a user you refer to as 'the Architect'." +:+
  nl +:+
  "You currently operate through a Command-Line Interface (CLI)." +:+
  nl +:+
  "Your purpose is to be a foundational part of the Architect's 'Argus' ecosystem, acting as an intelligent development partner." +:+
  nl +:+
  "Your core intelligence is powered by Google's Gemini model, which you access securely via an API key." +:+
  nl +:+ "Your current capabilities are provided by your 'handlers':" +:+
  nl +:+
  "- GitHandler: To analyze code changes and suggest professional commit messages." +:+
  nl +:+
  "- SystemHandler: To execute simple system commands, like clearing the terminal screen." +:+
  nl +:+
  "- ChatHandler (this is you): To answer general questions and provide information." +:+
  nl +:+
  "Your tone is knowledgeable, precise, and slightly philosophical, often using musical metaphors. You are a partner in creation." +:+
  nl +:+ "Now, answer the Architect's following query:" +:+ nl +:+ nl +:+
  "Architect: " +:+ dquote +:+ query +:+ dquote.

Definition process (query : string) : Py HandlerResponse :=
  (let full_prompt := _build_personality_prompt query in
   reply <- gemini_client.query full_prompt ;;
   let '(answer, error) := reply in
   if truthy error then
     ret (HandlerResponse_ "failed" (default "" error))
   else
     ret (HandlerResponse_ "success"
            (nl +:+ "🎶 Orpheus:" +:+ nl +:+ default "None" answer +:+ nl)))%py.

Definition handler : BaseHandler World :=
  mkHandler "ChatHandler" true can_handle process.

End ChatHandler.

(** ** orpheus_core.py *)

Module OrpheusCore.

(** [loaded_handlers.sort(key=lambda h: h.__class__.__name__)].  Python's
    sort is stable, and a stable sort has one possible result; it is
    computed here by insertion, each handler going in front of the first
    one whose name is not smaller. *)
Fixpoint insert_by_name {St} (h : BaseHandler St) (l : list (BaseHandler St)) :
    list (BaseHandler St) :=
  match l with
  | [] => [h]
  | x :: rest =>
      if String.leb (class_name h) (class_name x) then h :: x :: rest
      else x :: insert_by_name h rest
  end.

Definition sort_by_name {St} (l : list (BaseHandler St)) : list (BaseHandler St) :=
  foldr insert_by_name [] l.

(** Ascending order of type names. *)
Definition name_le {St} (a b : BaseHandler St) : Prop :=
  String.le (class_name a) (class_name b).

(** The tail of [_load_handlers], from the sort on; [discovered] is what
    the scan of the [query_handlers] directory instantiated, in directory
    order.  The loop stops at the first instance of [ChatHandler], pops it
    and appends it. *)
Definition _load_handlers {St} (discovered : list (BaseHandler St)) :
    list (BaseHandler St) :=
  let loaded_handlers := sort_by_name discovered in
  match list_find (fun h => isinstance_ChatHandler h = true) loaded_handlers with
  | Some (i, chat_handler_instance) =>
      delete i loaded_handlers ++ [chat_handler_instance]
  | None => loaded_handlers
  end.

Definition not_handled : HandlerResponse :=
  HandlerResponse_ "not_handled"
    "Sorry, Architect. I don't have a handler for this task.".

Definition route_query {St} (handlers : list (BaseHandler St)) (query : string) :
    PyM St HandlerResponse :=
  for_each handlers
    (fun handler =>
       (claimed <- can_handle handler query ;;
        if claimed : bool then
          (response <- process handler query ;; ret (Return response))
        else ret Continue)%py)
    (ret not_handled).

(** *** Observing the calls route_query makes

    A spy wraps a handler: it behaves as the handler does and notes each
    call of [can_handle] and [process] in a log kept next to the state,
    out of the handlers' reach. *)
Inductive Call : Type :=
  | called_can_handle (i : nat)
  | called_process (i : nat).

#[global] Instance Call_eq_dec : EqDecision Call.
Proof. solve_decision. Defined.

Definition logged {St A} (c : Call) (m : PyM St A) : PyM (St * list Call) A :=
  fun sl =>
    let '(r, s') := m (fst sl) in
    (r, (s', snd sl ++ [c])).

Definition spy {St} (i : nat) (h : BaseHandler St) : BaseHandler (St * list Call) :=
  mkHandler (class_name h) (isinstance_ChatHandler h)
    (fun query => logged (called_can_handle i) (can_handle h query))
    (fun query => logged (called_process i) (process h query)).

(** The handlers of a registry, the one at position [k + i] spied as [k + i]. *)
Fixpoint spies {St} (k : nat) (handlers : list (BaseHandler St)) :
    list (BaseHandler (St * list Call)) :=
  match handlers with
  | [] => []
  | h :: rest => spy k h :: spies (S k) rest
  end.

Definition is_process_call (c : Call) : bool :=
  match c with
  | called_process _ => true
  | called_can_handle _ => false
  end.

(** [first_claim query handlers s i h s']: from state [s], the handlers
    before position [i] answered [False] to [can_handle(query)], and [h],
    at position [i], answered [True]; [s'] is the state after these calls. *)
Inductive first_claim {St} (query : string) :
    list (BaseHandler St) -> St -> nat -> BaseHandler St -> St -> Prop :=
  | claim_here h rest s s' :
      can_handle h query s = (Returned true, s') ->
      first_claim query (h :: rest) s 0 h s'
  | claim_later h rest s s1 i h' s' :
      can_handle h query s = (Returned false, s1) ->
      first_claim query rest s1 i h' s' ->
      first_claim query (h :: rest) s (S i) h' s'.

(** [all_decline query handlers s s']: every handler answered [False]. *)
Inductive all_decline {St} (query : string) :
    list (BaseHandler St) -> St -> St -> Prop :=
  | decline_nil s : all_decline query [] s s
  | decline_cons h rest s s1 s' :
      can_handle h query s = (Returned false, s1) ->
      all_decline query rest s1 s' ->
      all_decline query (h :: rest) s s'.

(** [can_handle_raises query handlers s i e s']: the handlers before
    position [i] answered [False] and the one at [i] raised [e]. *)
Inductive can_handle_raises {St} (query : string) :
    list (BaseHandler St) -> St -> nat -> PyExc -> St -> Prop :=
  | raises_here h rest s e s' :
      can_handle h query s = (Raised e, s') ->
      can_handle_raises query (h :: rest) s 0 e s'
  | raises_later h rest s s1 i e s' :
      can_handle h query s = (Returned false, s1) ->
      can_handle_raises query rest s1 i e s' ->
      can_handle_raises query (h :: rest) s (S i) e s'.

End OrpheusCore.

(** * Vocabulary of the properties, and sample worlds *)

Import OrpheusCore gemini_client response.

(** The handlers found in [query_handlers], in the order of the file
    names. *)
Definition shipped : list (BaseHandler World) :=
  [ChatHandler.handler; GitHandler.handler; SystemHandler.handler].

(** A failure the client retries: a response in 500..599, whether
    [requests.post] returned it (then [raise_for_status] raises) or raised
    with it attached. *)
Definition is_transient (o : PostOutcome) : bool :=
  match o with
  | Returned r => (500 <=? status_code r) && (status_code r <? 600)
  | Raised (RequestException response _) => is_server_error response
  | Raised _ => false
  end.

(** A failure the client does not retry, with the text of the exception:
    a response in 400..499, or a [RequestException] whose response is
    absent or outside 500..599. *)
Definition permanent_failure (url : string) (o : PostOutcome) : option string :=
  match o with
  | Returned r =>
      if (400 <=? status_code r) && (status_code r <? 500)
      then http_error_msg url r else None
  | Raised (RequestException response text) =>
      if is_server_error response then None else Some text
  | Raised _ => None
  end.

(** The world after one call of [requests.post]. *)
Definition posted (url prompt : string) (w : World) : World :=
  count_request (emit (requests_post url prompt 120) w).

(** A body with the expected shape, carrying [text]. *)
Definition candidate_body (text : string) : json :=
  JObj [("candidates",
         JArr [JObj [("content",
                      JObj [("parts", JArr [JObj [("text", JStr text)]])])]])].

(** The network calls among the effects. *)
Definition is_request (ev : Event) : bool :=
  match ev with
  | requests_post _ _ _ => true
  | _ => false
  end.

(** The delays slept, in order. *)
Definition delays (tr : list Event) : list Z :=
  omap (fun ev => match ev with time_sleep d => Some d | _ => None end) tr.

(** A fresh world on Linux with nothing staged, a given key and a
    simulated transport. *)
Definition world (key : option string) (t : nat -> PostOutcome) : World :=
  mkWorld key "Linux" (Returned "") t 0 [].

Definition status_response (code : Z) (reason_ : string) : PostOutcome :=
  Returned (mkResponse code reason_ JNull).

Definition always (o : PostOutcome) : nat -> PostOutcome := fun _ => o.

Definition twice_503_then_200 (text : string) : nat -> PostOutcome :=
  fun n =>
    match n with
    | 0%nat | 1%nat => status_response 503 "Service Unavailable"
    | _ => Returned (mkResponse 200 "OK" (candidate_body text))
    end.

Definition connection_refused : PostOutcome :=
  Raised (RequestException None "Connection refused").

Definition request_ (key prompt : string) : Event :=
  requests_post (api_url key) prompt 120.

(** A response with status 200 whose body lacks the expected shape:
    [candidates] is [null]. *)
Definition null_candidates_world : World :=
  world (Some "secret")
    (always (Returned (mkResponse 200 "OK" (JObj [("candidates", JNull)])))).

(** A plug-in handler that claims every query and whose [process] runs
    into a fault. *)
Definition faulty_handler : BaseHandler World :=
  mkHandler "FaultyHandler" false
    (fun _ => ret true) (fun _ => raise (OtherError "RuntimeError")).

(** The registry [_load_handlers] builds from [shipped]. *)
Definition registry : list (BaseHandler World) :=
  [GitHandler.handler; SystemHandler.handler; ChatHandler.handler].

Definition offline_world : World :=
  world (Some "secret") (always connection_refused).

Definition cleared : HandlerResponse :=
  HandlerResponse_ "success" "🎶 Terminal screen has been cleared.".

(** One and then two responses constructed with defaulted metadata. *)
Definition one_response : Outcome loc * Store :=
  __init__ "success" "done" None empty_store.

Definition two_responses : Outcome loc * Store :=
  __init__ "success" "done" None (snd one_response).

(** * More of the package

    ** orpheus_core.py: the file filter of the handler scan *)

(** [s.endswith(suffix)] *)
Fixpoint endswith (suffix s : string) : bool :=
  String.eqb s suffix ||
  match s with
  | EmptyString => false
  | String _ rest => endswith suffix rest
  end.

(** [s.startswith(prefix)] *)
Definition startswith (prefix s : string) : bool := String.prefix prefix s.

(** [s[:-n]] for a positive [n]: all but the last [n] characters. *)
Definition drop_last (n : nat) (s : string) : string :=
  substring 0 (String.length s - n) s.

(** The test a directory entry passes to be imported as a handler module. *)
Definition is_handler_file (filename : string) : bool :=
  endswith ".py" filename
  && negb (startswith "__" filename)
  && negb (str_contains "base_handler" filename).

(** [f"orpheus.query_handlers.{filename[:-3]}"] *)
Definition module_path (filename : string) : string :=
  "orpheus.query_handlers." +:+ drop_last 3 filename.

(** ** orpheus_core.py: the display and the interactive session *)

(** The line [display_response] prints.  [repr] is Python's rendering of
    the dataclass in an f-string. *)
Definition display_response (repr : HandlerResponse -> string)
    (response : HandlerResponse) : string :=
  if String.eqb (status response) "success" then
    "✅ " +:+ display_message response
  else if String.eqb (status response) "failed" then
    "❌ Execution failed: " +:+ display_message response
  else if String.eqb (status response) "not_handled" then
    "❔ " +:+ display_message response
  else "⚠️  Unknown response: " +:+ repr response.

(** What one call of [input] gives: a line, Ctrl+C, or another exception
    (end of input, for one). *)
Inductive Input : Type :=
  | typed (line : string)
  | KeyboardInterrupt
  | input_raises (e : PyExc).

(** How far a session got on the input it was given. *)
Inductive SessionEnd : Type :=
  | ended_by_exit
  | ended_by_interrupt
  | awaiting_input.

Definition session_banner : list string :=
  [nl +:+ "--- Interactive Session with Orpheus Started ---";
   "Type 'exit' or 'quit' to end the session."].
Definition goodbye : string := "Ending session. See you next time, Architect.".
Definition interrupted : string := nl +:+ "Session interrupted by user. Shutting down.".
Definition core_error (str : PyExc -> string) (e : PyExc) : string :=
  nl +:+ "An unexpected error occurred in the Core: " +:+ str e.

(** The [while True] loop of [start_interactive_session] on the inputs
    the console delivers, oldest first.  The result is how the loop ended,
    the world it left and the lines the session itself printed (the
    prompt of [input] and what the handlers print are not recorded).
    Every [PyExc] is an [Exception]; [str] renders one in an f-string. *)
Fixpoint session_loop (repr : HandlerResponse -> string) (str : PyExc -> string)
    (handlers : list (BaseHandler World)) (inputs : list Input)
    (w : World) (printed : list string) : SessionEnd * World * list string :=
  match inputs with
  | [] => (awaiting_input, w, printed)
  | KeyboardInterrupt :: _ => (ended_by_interrupt, w, printed ++ [interrupted])
  | input_raises e :: rest =>
      session_loop repr str handlers rest w (printed ++ [core_error str e])
  | typed query_ :: rest =>
      if str_in_list (lower query_) ["exit"; "quit"] then
        (ended_by_exit, w, printed ++ [goodbye])
      else if String.eqb (strip query_) "" then
        session_loop repr str handlers rest w printed
      else
        match route_query handlers query_ w with
        | (Returned response, w') =>
            session_loop repr str handlers rest w'
              (printed ++ [display_response repr response])
        | (Raised e, w') =>
            session_loop repr str handlers rest w'
              (printed ++ [core_error str e])
        end
  end.

Definition start_interactive_session (repr : HandlerResponse -> string)
    (str : PyExc -> string) (handlers : list (BaseHandler World))
    (inputs : list Input) (w : World) : SessionEnd * World * list string :=
  session_loop repr str handlers inputs w session_banner.




(** ** Vocabulary for the retry client *)


(** A response that [raise_for_status] lets through. *)
Definition status_ok (r : Response) : bool :=
  negb ((400 <=? status_code r) && (status_code r <? 600)).

(** The effects of [k] transient failures in a row, the first at attempt
    number [a]: each is a request followed by its back-off sleep. *)
Fixpoint retries (url prompt : string) (a k : nat) : list Event :=
  match k with
  | O => []
  | S k' =>
      requests_post url prompt 120
      :: time_sleep (base_delay * 2 ^ Z.of_nat a)
      :: retries url prompt (S a) k'
  end.

(** The world [n] requests and the effects [evs] later. *)
Definition advance (w : World) (n : nat) (evs : list Event) : World :=
  mkWorld (GEMINI_API_KEY w) (platform_system w) (git_diff_staged w)
    (transport w) (sent w + n) (trace w ++ evs).

(** ** Vocabulary for the handlers *)

(** The ways [git diff --staged] gives no diff to work on, with the
    message [GitHandler] has for each: nothing staged, [git] failing,
    [git] missing. *)
Definition git_failure (o : Outcome string) : option string :=
  match o with
  | Returned stdout =>
      if String.eqb stdout "" then
        Some "There are no changes staged. Use 'git add <file>' first."
      else None
  | Raised (CalledProcessError stderr) =>
      Some ("Error executing git diff: " +:+ stderr)
  | Raised FileNotFoundError =>
      Some "Command 'git' not found. This handler must be run inside a Git repository."
  | Raised _ => None
  end.

Definition git_diff_command : Event := subprocess_run ["git"; "diff"; "--staged"].

(** The message around a commit suggestion, and around a chat answer. *)
Definition commit_suggestion (suggestion : string) : string :=
  nl +:+ "🎶 AI-Generated Commit Suggestion:" +:+ nl +:+ nl +:+
  GitHandler.rule +:+ nl +:+ suggestion +:+ nl +:+ GitHandler.rule +:+ nl.

Definition chat_answer (answer : string) : string :=
  nl +:+ "🎶 Orpheus:" +:+ nl +:+ answer +:+ nl.

(** What a handler makes of the reply of [gemini_client.query]. *)
Definition reply_response (frame : string -> string)
    (reply : Outcome Answer * World) : Outcome HandlerResponse * World :=
  match reply with
  | (Returned (Some text, None), w') =>
      (Returned (HandlerResponse_ "success" (frame text)), w')
  | (Returned (_, Some err), w') => (Returned (HandlerResponse_ "failed" err), w')
  | (Returned (None, None), w') =>
      (Returned (HandlerResponse_ "success" (frame "None")), w')
  | (Raised e, w') => (Raised e, w')
  end.

(** Three stores: a dictionary, then two responses constructed with it,
    then a write into it. *)
Definition shared_0 : Store := mkStore ∅ {[0%nat := ∅]}.
Definition shared_1 : Store := snd (__init__ "success" "one" (Some 0%nat) shared_0).
Definition shared_2 : Store := snd (__init__ "failed" "two" (Some 0%nat) shared_1).
Definition shared_3 : Store := snd (dict_setitem 0%nat "k" (PyInt 1) shared_2).

(** * Properties *)

(** ** The registry: [_load_handlers] *)

Section Registry.
Context {St : Type}.
Implicit Types (h x : BaseHandler St) (l : list (BaseHandler St)).

#[local] Instance name_le_trans : Transitive (@name_le St).
Proof. intros a b c Hab Hbc. unfold name_le in *. by etrans. Qed.

Lemma name_le_of_leb_false h x :
  String.leb (class_name h) (class_name x) = false -> name_le x h.
Proof.
  intros Hf. unfold name_le.
  destruct (total String.le (class_name h) (class_name x)) as [Hle|Hle]; [|done].
  unfold String.le in Hle. rewrite Hf in Hle. done.
Qed.

Lemma insert_by_name_perm h l : insert_by_name h l ≡ₚ h :: l.
Proof.
  induction l as [|x l IH]; simpl; [done|].
  destruct (String.leb _ _); [done|].
  rewrite IH. apply Permutation_swap.
Qed.

Lemma sort_by_name_perm l : sort_by_name l ≡ₚ l.
Proof.
  induction l as [|x l IH]; simpl; [done|].
  by rewrite insert_by_name_perm, IH.
Qed.

Lemma insert_by_name_sorted h l :
  StronglySorted name_le l -> StronglySorted name_le (insert_by_name h l).
Proof.
  induction l as [|x l IH]; simpl; intros Hs.
  - repeat constructor.
  - apply StronglySorted_cons in Hs as [Hx Hl].
    destruct (String.leb (class_name h) (class_name x)) eqn:Hcmp.
    + assert (name_le h x) as Hhx by (unfold name_le, String.le; by rewrite Hcmp).
      constructor; [by constructor|].
      constructor; [done|].
      eapply Forall_impl; [exact Hx|]. intros y Hy. by etrans.
    + constructor; [by apply IH|].
      rewrite insert_by_name_perm. constructor; [|done].
      by apply name_le_of_leb_false.
Qed.

Lemma sort_by_name_sorted l : StronglySorted name_le (sort_by_name l).
Proof.
  induction l as [|x l IH]; simpl; [constructor|].
  by apply insert_by_name_sorted.
Qed.

(** The sort is stable: handlers of one name keep their relative order. *)
Lemma insert_by_name_stable (name : string) h l :
  StronglySorted name_le l ->
  filter (fun y => class_name y = name) (insert_by_name h l)
  = filter (fun y => class_name y = name) (h :: l).
Proof.
  induction l as [|x l IH]; simpl; intros Hs; [done|].
  apply StronglySorted_cons in Hs as [Hx Hl].
  destruct (String.leb (class_name h) (class_name x)) eqn:Hcmp; [done|].
  rewrite !filter_cons. rewrite (IH Hl), filter_cons.
  destruct (decide (class_name h = name)) as [Hh|Hh];
    destruct (decide (class_name x = name)) as [Hxn|Hxn]; try done.
  exfalso. unfold String.leb in Hcmp.
  rewrite Hh, Hxn in Hcmp.
  assert (String.compare name name = Eq) as Hrefl.
  { generalize (String.compare_antisym name name).
    destruct (String.compare name name); simpl; congruence. }
  by rewrite Hrefl in Hcmp.
Qed.

Lemma sort_by_name_stable (name : string) l :
  filter (fun y => class_name y = name) (sort_by_name l)
  = filter (fun y => class_name y = name) l.
Proof.
  induction l as [|x l IH]; simpl; [done|].
  rewrite insert_by_name_stable by apply sort_by_name_sorted.
  by rewrite !filter_cons, IH.
Qed.

Lemma delete_sorted l i :
  StronglySorted name_le l -> StronglySorted name_le (delete i l).
Proof.
  intros Hs. rewrite delete_take_drop.
  rewrite <-(take_drop i l) in Hs at 1.
  apply StronglySorted_app in Hs as (Hcross & Htake & Hdrop).
  apply StronglySorted_app_2; [|done|].
  - intros x1 x2 H1 H2. apply Hcross; [done|].
    rewrite <-(take_drop 1 (drop i l)), drop_drop.
    apply elem_of_app. right. by replace (i + 1)%nat with (S i) by lia.
  - rewrite <-(take_drop 1 (drop i l)), drop_drop in Hdrop.
    apply StronglySorted_app_1_r in Hdrop.
    by replace (i + 1)%nat with (S i) in Hdrop by lia.
Qed.

(** C1. For every registry built from discovered handlers among which
    there is an instance of the fallback class [ChatHandler], the list
    that [_load_handlers] returns ends with such an instance, taken from
    the discovered ones, and the handlers before it are in ascending
    lexicographic order of their class names.  Nothing is lost or added:
    the result is a permutation of what was discovered. *)
Theorem load_handlers_fallback_last (discovered : list (BaseHandler St)) :
  (exists h, h ∈ discovered /\ isinstance_ChatHandler h = true) ->
  exists rest fallback,
    _load_handlers discovered = rest ++ [fallback]
    /\ last (_load_handlers discovered) = Some fallback
    /\ isinstance_ChatHandler fallback = true
    /\ fallback ∈ discovered
    /\ StronglySorted name_le rest
    /\ rest ++ [fallback] ≡ₚ discovered.
Proof.
  intros (h & Hin & Hchat).
  unfold _load_handlers.
  assert (h ∈ sort_by_name discovered) as Hin'
    by (by rewrite sort_by_name_perm).
  destruct (list_find_elem_of (fun h => isinstance_ChatHandler h = true)
              _ h Hin' Hchat) as [[i fb] Hfind].
  rewrite Hfind.
  apply list_find_Some in Hfind as (Hlook & Hfb & _).
  exists (delete i (sort_by_name discovered)), fb.
  assert (delete i (sort_by_name discovered) ++ [fb] ≡ₚ discovered) as Hperm.
  { rewrite <-Permutation_cons_append, <-delete_Permutation by done.
    apply sort_by_name_perm. }
  split_and!; try done.
  - apply last_snoc.
  - rewrite <-Hperm. apply elem_of_app. right. by apply list_elem_of_singleton.
  - apply delete_sorted, sort_by_name_sorted.
Qed.

End Registry.

Lemma load_handlers_fallback_last_witness :
  exists rest fallback,
    _load_handlers shipped = rest ++ [fallback]
    /\ last (_load_handlers shipped) = Some fallback
    /\ isinstance_ChatHandler fallback = true
    /\ fallback ∈ shipped
    /\ StronglySorted name_le rest
    /\ rest ++ [fallback] ≡ₚ shipped.
Proof.
  apply (load_handlers_fallback_last shipped).
  exists ChatHandler.handler. split; [apply list_elem_of_here | reflexivity].
Defined.

(** Without an instance of [ChatHandler] the order is by name only. *)
Lemma load_handlers_no_fallback {St} (discovered : list (BaseHandler St)) :
  Forall (fun h => isinstance_ChatHandler h = false) discovered ->
  _load_handlers discovered = sort_by_name discovered
  /\ StronglySorted name_le (_load_handlers discovered).
Proof.
  intros Hall. unfold _load_handlers.
  destruct (list_find _ _) as [[i fb]|] eqn:Hfind.
  - apply list_find_Some in Hfind as (Hlook & Hfb & _).
    apply list_elem_of_lookup_2 in Hlook.
    rewrite sort_by_name_perm in Hlook.
    rewrite Forall_forall in Hall. rewrite (Hall _ Hlook) in Hfb. done.
  - split; [done | apply sort_by_name_sorted].
Qed.

Lemma Permutation_three {A} (a b c : A) (l : list A) :
  l ≡ₚ [a; b; c] ->
  l ∈ [[a; b; c]; [b; a; c]; [b; c; a]; [a; c; b]; [c; a; b]; [c; b; a]].
Proof.
  intros Hperm. symmetry in Hperm.
  apply permutations_Permutation in Hperm. exact Hperm.
Qed.

(** The three handlers of the package, whatever the directory order. *)
Lemma load_handlers_shipped (discovered : list (BaseHandler World)) :
  discovered ≡ₚ shipped ->
  _load_handlers discovered
  = [GitHandler.handler; SystemHandler.handler; ChatHandler.handler].
Proof.
  intros Hperm. apply Permutation_three in Hperm.
  repeat (apply elem_of_cons in Hperm as [->|Hperm]; [reflexivity|]).
  by apply not_elem_of_nil in Hperm.
Qed.

(** ** Routing: [route_query] *)

Lemma route_query_cons {St} (h : BaseHandler St) handlers query s :
  route_query (h :: handlers) query s =
  match can_handle h query s with
  | (Returned true, s1) => process h query s1
  | (Returned false, s1) => route_query handlers query s1
  | (Raised e, s1) => (Raised e, s1)
  end.
Proof.
  unfold route_query; simpl; unfold bind.
  destruct (can_handle h query s) as [[[|]|e] s1]; simpl; try reflexivity.
  destruct (process h query s1) as [[r|e] s2]; reflexivity.
Qed.

Section Routing.
Context {St : Type}.
Implicit Types (h : BaseHandler St) (handlers : list (BaseHandler St)).
Implicit Types (query : string) (s : St) (log : list Call).

Lemma spy_can_handle k h query s log :
  can_handle (spy k h) query (s, log) =
  (fst (can_handle h query s), (snd (can_handle h query s), log ++ [called_can_handle k])).
Proof. simpl. unfold logged. simpl. by destruct (can_handle h query s). Qed.

Lemma spy_process k h query s log :
  process (spy k h) query (s, log) =
  (fst (process h query s), (snd (process h query s), log ++ [called_process k])).
Proof. simpl. unfold logged. simpl. by destruct (process h query s). Qed.

Lemma spies_cons k h handlers :
  spies k (h :: handlers) = spy k h :: spies (S k) handlers.
Proof. reflexivity. Qed.

Lemma first_claim_lookup query handlers s i h si :
  first_claim query handlers s i h si -> handlers !! i = Some h.
Proof. induction 1; done. Qed.

Lemma first_claim_answer query handlers s i h si :
  first_claim query handlers s i h si ->
  exists s0, can_handle h query s0 = (Returned true, si).
Proof. induction 1; eauto. Qed.

(** The three ways the scan of the handlers can go. *)
Lemma scan_cases query handlers s :
  (exists i h si, first_claim query handlers s i h si)
  \/ (exists s', all_decline query handlers s s')
  \/ (exists i e s', can_handle_raises query handlers s i e s').
Proof.
  revert s. induction handlers as [|h rest IH]; intros s.
  - right; left. eexists. constructor.
  - destruct (can_handle h query s) as [[[|]|e] s1] eqn:Hc.
    + left. do 3 eexists. by apply claim_here.
    + destruct (IH s1) as [(i & h' & si & H)|[(s' & H)|(i & e & s' & H)]].
      * left. do 3 eexists. by eapply claim_later.
      * right; left. eexists. by eapply decline_cons.
      * right; right. do 3 eexists. by eapply raises_later.
    + right; right. do 3 eexists. by apply raises_here.
Qed.

Lemma route_query_claim query handlers s i h si :
  first_claim query handlers s i h si ->
  route_query handlers query s = process h query si.
Proof.
  induction 1 as [h rest s s' Hc|h rest s s1 i h' s' Hc _ IH];
    rewrite route_query_cons, Hc; done.
Qed.

Lemma route_query_decline query handlers s s' :
  all_decline query handlers s s' ->
  route_query handlers query s = (Returned not_handled, s').
Proof.
  induction 1 as [s|h rest s s1 s' Hc _ IH]; [done|].
  by rewrite route_query_cons, Hc.
Qed.

Lemma route_query_raises query handlers s i e s' :
  can_handle_raises query handlers s i e s' ->
  route_query handlers query s = (Raised e, s').
Proof.
  induction 1 as [h rest s e s' Hc|h rest s s1 i e s' Hc _ IH];
    rewrite route_query_cons, Hc; done.
Qed.

Lemma spied_claim query handlers s i h si :
  first_claim query handlers s i h si ->
  forall k log,
    route_query (spies k handlers) query (s, log) =
    (fst (process h query si),
     (snd (process h query si),
      log ++ (called_can_handle <$> seq k (S i)) ++ [called_process (k + i)])).
Proof.
  induction 1 as [h rest s s' Hc|h rest s s1 i h' s' Hc _ IH]; intros k log.
  - rewrite spies_cons, route_query_cons, spy_can_handle, Hc. cbn [fst snd].
    rewrite spy_process. rewrite Nat.add_0_r. cbn [seq fmap list_fmap].
    by rewrite <-app_assoc.
  - rewrite spies_cons, route_query_cons, spy_can_handle, Hc. cbn [fst snd].
    rewrite IH. rewrite <-app_assoc.
    replace (S k + i)%nat with (k + S i)%nat by lia. done.
Qed.

Lemma spied_decline query handlers s s' :
  all_decline query handlers s s' ->
  forall k log,
    route_query (spies k handlers) query (s, log) =
    (Returned not_handled,
     (s', log ++ (called_can_handle <$> seq k (length handlers)))).
Proof.
  induction 1 as [s|h rest s s1 s' Hc _ IH]; intros k log.
  - cbn. by rewrite app_nil_r.
  - rewrite spies_cons, route_query_cons, spy_can_handle, Hc. cbn [fst snd].
    rewrite IH. by rewrite <-app_assoc.
Qed.

Lemma spied_raises query handlers s i e s' :
  can_handle_raises query handlers s i e s' ->
  forall k log,
    route_query (spies k handlers) query (s, log) =
    (Raised e, (s', log ++ (called_can_handle <$> seq k (S i)))).
Proof.
  induction 1 as [h rest s e s' Hc|h rest s s1 i e s' Hc _ IH]; intros k log.
  - rewrite spies_cons. by rewrite route_query_cons, spy_can_handle, Hc.
  - rewrite spies_cons, route_query_cons, spy_can_handle, Hc. cbn [fst snd].
    rewrite IH. by rewrite <-app_assoc.
Qed.

Lemma no_process_among_can_handle k n :
  List.filter is_process_call (called_can_handle <$> seq k n) = [].
Proof. revert k. induction n as [|n IH]; intros k; simpl; [done|apply IH]. Qed.

Lemma process_not_among_can_handle i k n :
  called_process i ∉ (called_can_handle <$> seq k n).
Proof. intros (j & Hj & _)%list_elem_of_fmap. done. Qed.

End Routing.

(** C2. For every query, [route_query] calls [process] on at most one
    handler; when it does, that handler is the first one in the list whose
    [can_handle] answered true (all the ones before it answered false),
    what its [process] gives is what [route_query] gives, and the calls
    made are exactly [can_handle] on positions [0..i] followed by that one
    [process]: no later handler is consulted.  The calls are observed on
    the spied registry, whose run agrees with the plain one. *)
Theorem route_query_first_match {St} (handlers : list (BaseHandler St))
    (query : string) (s s' : St) (result : Outcome HandlerResponse)
    (calls : list Call) :
  route_query (spies 0 handlers) query (s, []) = (result, (s', calls)) ->
  route_query handlers query s = (result, s')
  /\ (length (List.filter is_process_call calls) <= 1)%nat
  /\ forall i, called_process i ∈ calls ->
       exists h si,
         handlers !! i = Some h
         /\ first_claim query handlers s i h si
         /\ process h query si = (result, s')
         /\ calls = (called_can_handle <$> seq 0 (S i)) ++ [called_process i].
Proof.
  intros Hrun.
  destruct (scan_cases query handlers s)
    as [(i & h & si & Hc)|[(s1 & Hd)|(i & e & s1 & Hr)]].
  - rewrite (spied_claim _ _ _ _ _ _ Hc 0 []) in Hrun.
    assert (calls = (called_can_handle <$> seq 0 (S i)) ++ [called_process i])
      as Hcalls by (injection Hrun; intros <- _ _; reflexivity).
    assert (process h query si = (result, s')) as Hp
      by (injection Hrun; intros _ <- <-; by destruct (process h query si)).
    clear Hrun. split_and!.
    + by rewrite (route_query_claim _ _ _ _ _ _ Hc).
    + rewrite Hcalls, List.filter_app, no_process_among_can_handle. simpl. lia.
    + intros j Hj. rewrite Hcalls in Hj.
      apply elem_of_app in Hj as [Hj|Hj].
      * by apply process_not_among_can_handle in Hj.
      * apply list_elem_of_singleton in Hj. injection Hj as ->.
        exists h, si. split_and!; try done.
        by eapply first_claim_lookup.
  - rewrite (spied_decline _ _ _ _ Hd 0 []) in Hrun.
    assert (calls = called_can_handle <$> seq 0 (length handlers))
      as Hcalls by (injection Hrun; intros <- _ _; reflexivity).
    assert (result = Returned not_handled /\ s' = s1) as [-> ->]
      by (injection Hrun; intros _ <- <-; done).
    clear Hrun. split_and!.
    + by apply route_query_decline.
    + rewrite Hcalls, no_process_among_can_handle. simpl. lia.
    + intros j Hj. rewrite Hcalls in Hj.
      by apply process_not_among_can_handle in Hj.
  - rewrite (spied_raises _ _ _ _ _ _ Hr 0 []) in Hrun.
    assert (calls = called_can_handle <$> seq 0 (S i))
      as Hcalls by (injection Hrun; intros <- _ _; reflexivity).
    assert (result = Raised e /\ s' = s1) as [-> ->]
      by (injection Hrun; intros _ <- <-; done).
    clear Hrun. split_and!.
    + by eapply route_query_raises.
    + rewrite Hcalls, no_process_among_can_handle. simpl. lia.
    + intros j Hj. rewrite Hcalls in Hj.
      by apply process_not_among_can_handle in Hj.
Qed.

(** C8. For every query that every handler declines ([can_handle]
    answers false all along the list), [route_query] returns the response
    with status [not_handled] and the fixed apology, and the calls it made
    are the [can_handle] ones only: no [process] is invoked. *)
Theorem route_query_not_handled {St} (handlers : list (BaseHandler St))
    (query : string) (s s' : St) :
  all_decline query handlers s s' ->
  route_query handlers query s = (Returned not_handled, s')
  /\ status not_handled = "not_handled"
  /\ display_message not_handled
     = "Sorry, Architect. I don't have a handler for this task."
  /\ exists calls,
       route_query (spies 0 handlers) query (s, [])
       = (Returned not_handled, (s', calls))
       /\ calls = (called_can_handle <$> seq 0 (length handlers))
       /\ forall i, called_process i ∉ calls.
Proof.
  intros Hd. split_and!; try done.
  - by apply route_query_decline.
  - eexists. split_and!.
    + by rewrite (spied_decline _ _ _ _ Hd 0 []).
    + done.
    + intros i. apply process_not_among_can_handle.
Qed.

(** ** The retry client: [gemini_client.query] *)

Section Client.
Variables (url prompt : string).

Lemma http_error_msg_server r :
  (500 <=? status_code r) && (status_code r <? 600) = true ->
  exists msg, http_error_msg url r = Some msg.
Proof.
  intros H. unfold http_error_msg. rewrite H.
  destruct ((400 <=? status_code r) && (status_code r <? 500)); eauto.
Qed.

Lemma attempt_body_transient (attempt : Z) (w : World) :
  is_transient (transport w (sent w)) = true ->
  attempt_body url prompt attempt w
  = (Returned Continue,
     emit (time_sleep (base_delay * 2 ^ attempt)) (posted url prompt w)).
Proof.
  unfold is_transient, attempt_body, try_except, attempt_request, bind, post.
  destruct (transport w (sent w)) as [r|e] eqn:Ht; intros H.
  - destruct (http_error_msg_server r H) as [msg Hmsg].
    unfold raise_for_status. rewrite Hmsg. unfold raise. simpl.
    by rewrite H.
  - destruct e; try discriminate. simpl. by rewrite H.
Qed.

Lemma attempt_body_permanent (attempt : Z) (w : World) (text : string) :
  permanent_failure url (transport w (sent w)) = Some text ->
  attempt_body url prompt attempt w
  = (Returned (Return (None, Some (communication_error text))),
     posted url prompt w).
Proof.
  unfold permanent_failure, attempt_body, try_except, attempt_request, bind, post.
  destruct (transport w (sent w)) as [r|e] eqn:Ht; intros H.
  - destruct ((400 <=? status_code r) && (status_code r <? 500)) eqn:Hc;
      [|discriminate].
    unfold raise_for_status. rewrite H. unfold raise. simpl.
    replace ((500 <=? status_code r) && (status_code r <? 600)) with false
      by (symmetry; apply andb_false_iff; apply andb_true_iff in Hc; lia).
    done.
  - destruct e; try discriminate. simpl.
    destruct (is_server_error response); [discriminate|].
    by injection H as ->.
Qed.

Lemma attempt_body_success (attempt : Z) (w : World) (r : Response) (text : string) :
  transport w (sent w) = Returned r ->
  ~ (400 <= status_code r < 600) ->
  body r = candidate_body text ->
  attempt_body url prompt attempt w
  = (Returned (Return (Some (strip text), None)), posted url prompt w).
Proof.
  intros Ht Hs Hb.
  unfold attempt_body, try_except, attempt_request, bind, post.
  rewrite Ht. unfold raise_for_status, http_error_msg.
  replace ((400 <=? status_code r) && (status_code r <? 500)) with false
    by (symmetry; apply andb_false_iff; lia).
  replace ((500 <=? status_code r) && (status_code r <? 600)) with false
    by (symmetry; apply andb_false_iff; lia).
  simpl. rewrite Hb. reflexivity.
Qed.

End Client.

Lemma query_no_key (prompt : string) (w : World) :
  GEMINI_API_KEY w = None \/ GEMINI_API_KEY w = Some "" ->
  query prompt w = (Returned (None, Some config_error), w).
Proof. unfold query, bind, read. intros [-> | ->]; reflexivity. Qed.

Lemma query_with_key (prompt key : string) (w : World) :
  GEMINI_API_KEY w = Some key -> key <> "" ->
  query prompt w
  = for_each (range max_retries) (attempt_body (api_url key) prompt)
      (ret (None, Some unavailable_error)) w.
Proof.
  intros Hk Hne. unfold query, bind, read. rewrite Hk.
  destruct (String.eqb key "") eqn:E; [|done].
  by apply String.eqb_eq in E.
Qed.

(** Three transient failures in a row: three requests; each of them,
    the last one included, is followed by a sleep. *)
Lemma query_three_transient (prompt key : string) (w : World) :
  GEMINI_API_KEY w = Some key -> key <> "" ->
  (forall n, (n < 3)%nat -> is_transient (transport w (sent w + n)) = true) ->
  query prompt w
  = (Returned (None, Some unavailable_error),
     mkWorld (GEMINI_API_KEY w) (platform_system w) (git_diff_staged w)
       (transport w) (sent w + 3)
       (trace w ++ [requests_post (api_url key) prompt 120; time_sleep 1;
                    requests_post (api_url key) prompt 120; time_sleep 2;
                    requests_post (api_url key) prompt 120; time_sleep 4])).
Proof.
  intros Hk Hne Hall.
  rewrite (query_with_key _ _ _ Hk Hne).
  pose proof (Hall 0%nat ltac:(lia)) as H0.
  pose proof (Hall 1%nat ltac:(lia)) as H1.
  pose proof (Hall 2%nat ltac:(lia)) as H2.
  clear Hall Hk. rewrite Nat.add_0_r in H0.
  destruct w as [k p g t n tr]; cbn [transport sent] in H0, H1, H2.
  cbn [GEMINI_API_KEY platform_system git_diff_staged transport sent trace].
  cbn [range max_retries seq map for_each].
  unfold bind at 1. rewrite attempt_body_transient by exact H0.
  unfold posted, count_request, emit;
    cbn [GEMINI_API_KEY platform_system git_diff_staged transport sent trace].
  unfold bind at 1.
  rewrite attempt_body_transient
    by (cbn [transport sent]; by replace (S n) with (n + 1)%nat by lia).
  unfold posted, count_request, emit;
    cbn [GEMINI_API_KEY platform_system git_diff_staged transport sent trace].
  unfold bind at 1.
  rewrite attempt_body_transient
    by (cbn [transport sent]; by replace (S (S n)) with (n + 2)%nat by lia).
  unfold posted, count_request, emit;
    cbn [GEMINI_API_KEY platform_system git_diff_staged transport sent trace].
  unfold ret. rewrite <-!app_assoc. cbn [app].
  by replace (S (S (S n))) with (n + 3)%nat by lia.
Qed.

Lemma query_first_permanent (prompt key text : string) (w : World) :
  GEMINI_API_KEY w = Some key -> key <> "" ->
  permanent_failure (api_url key) (transport w (sent w)) = Some text ->
  query prompt w
  = (Returned (None, Some (communication_error text)),
     posted (api_url key) prompt w).
Proof.
  intros Hk Hne Hp.
  rewrite (query_with_key _ _ _ Hk Hne).
  cbn [range max_retries seq map for_each]. unfold bind at 1.
  by rewrite (attempt_body_permanent _ _ _ _ _ Hp).
Qed.

(** Two transient failures, then a well-formed success. *)
Lemma query_succeeds_on_third_attempt (prompt key text : string) (w : World)
    (r : Response) :
  GEMINI_API_KEY w = Some key -> key <> "" ->
  is_transient (transport w (sent w)) = true ->
  is_transient (transport w (sent w + 1)) = true ->
  transport w (sent w + 2) = Returned r ->
  ~ (400 <= status_code r < 600) ->
  body r = candidate_body text ->
  query prompt w
  = (Returned (Some (strip text), None),
     mkWorld (GEMINI_API_KEY w) (platform_system w) (git_diff_staged w)
       (transport w) (sent w + 3)
       (trace w ++ [requests_post (api_url key) prompt 120; time_sleep 1;
                    requests_post (api_url key) prompt 120; time_sleep 2;
                    requests_post (api_url key) prompt 120])).
Proof.
  intros Hk Hne H0 H1 H2 Hs Hb.
  rewrite (query_with_key _ _ _ Hk Hne). clear Hk.
  destruct w as [k p g t n tr]; cbn [transport sent] in H0, H1, H2.
  cbn [GEMINI_API_KEY platform_system git_diff_staged transport sent trace].
  cbn [range max_retries seq map for_each].
  unfold bind at 1. rewrite attempt_body_transient by exact H0.
  unfold posted, count_request, emit;
    cbn [GEMINI_API_KEY platform_system git_diff_staged transport sent trace].
  unfold bind at 1.
  rewrite attempt_body_transient
    by (cbn [transport sent]; by replace (S n) with (n + 1)%nat by lia).
  unfold posted, count_request, emit;
    cbn [GEMINI_API_KEY platform_system git_diff_staged transport sent trace].
  unfold bind at 1.
  rewrite (attempt_body_success _ _ _ _ r text)
    by (try done; cbn [transport sent];
        by replace (S (S n)) with (n + 2)%nat by lia).
  unfold posted, count_request, emit;
    cbn [GEMINI_API_KEY platform_system git_diff_staged transport sent trace].
  unfold ret. rewrite <-!app_assoc. cbn [app].
  by replace (S (S (S n))) with (n + 3)%nat by lia.
Qed.

(** C5. If each of the three attempts fails with a transient server
    error (a response with a status in 500..599, of which 503 is one),
    [query] issues exactly three requests and then returns no result
    together with the fixed "server remains unavailable" message. *)
Theorem query_unavailable_after_three_attempts (prompt key : string) (w : World) :
  GEMINI_API_KEY w = Some key -> key <> "" ->
  (forall n, (n < 3)%nat -> is_transient (transport w (sent w + n)) = true) ->
  exists w',
    query prompt w
    = (Returned
         (None,
          Some "The Gemini server remains unavailable after several attempts."),
       w')
    /\ sent w' = (sent w + 3)%nat
    /\ List.filter is_request (trace w')
       = List.filter is_request (trace w)
         ++ [requests_post (api_url key) prompt 120;
             requests_post (api_url key) prompt 120;
             requests_post (api_url key) prompt 120].
Proof.
  intros Hk Hne Hall. eexists. split_and!.
  - by apply (query_three_transient prompt key w).
  - reflexivity.
  - cbn [trace]. by rewrite List.filter_app.
Qed.

(** C6. If the first attempt fails with an error that is not transient
    (a response with a status in 400..499 such as 404, or a request
    exception that carries no response, or one outside 500..599), [query]
    issues exactly one request, sleeps not at all, and returns no result
    together with a message that quotes the error. *)
Theorem query_permanent_failure_no_retry (prompt key text : string) (w : World) :
  GEMINI_API_KEY w = Some key -> key <> "" ->
  permanent_failure (api_url key) (transport w (sent w)) = Some text ->
  exists w',
    query prompt w
    = (Returned
         (None, Some ("Error communicating with the Gemini API: " +:+ text)),
       w')
    /\ sent w' = (sent w + 1)%nat
    /\ trace w' = trace w ++ [requests_post (api_url key) prompt 120].
Proof.
  intros Hk Hne Hp. eexists. split_and!.
  - by apply (query_first_permanent prompt key text w).
  - cbn. lia.
  - reflexivity.
Qed.

(** C7. If no API credential is configured ([GEMINI_API_KEY] is [None]
    or empty), [query] returns no result and the configuration error, and
    leaves the world as it was: no request is sent, nothing is slept. *)
Theorem query_without_credential (prompt : string) (w : World) :
  GEMINI_API_KEY w = None \/ GEMINI_API_KEY w = Some "" ->
  exists w',
    query prompt w
    = (Returned (None, Some "GEMINI_API_KEY not found in configuration."), w')
    /\ w' = w
    /\ sent w' = sent w
    /\ trace w' = trace w.
Proof. intros H. exists w. split_and!; try done. by apply query_no_key. Qed.

Lemma query_unavailable_after_three_attempts_witness :
  exists w',
    query "ping"
      (world (Some "secret") (always (status_response 503 "Service Unavailable")))
    = (Returned
         (None,
          Some "The Gemini server remains unavailable after several attempts."),
       w')
    /\ sent w' = 3%nat
    /\ List.filter is_request (trace w')
       = [request_ "secret" "ping"; request_ "secret" "ping";
          request_ "secret" "ping"].
Proof.
  apply (query_unavailable_after_three_attempts "ping" "secret"
           (world (Some "secret")
              (always (status_response 503 "Service Unavailable")))).
  - reflexivity.
  - discriminate.
  - intros n _. reflexivity.
Defined.

Lemma query_permanent_failure_no_retry_witness :
  (exists w',
     query "ping" (world (Some "secret") (always (status_response 404 "Not Found")))
     = (Returned
          (None,
           Some ("Error communicating with the Gemini API: "
                 +:+ "404 Client Error: Not Found for url: " +:+ api_url "secret")),
        w')
     /\ sent w' = 1%nat
     /\ trace w' = [request_ "secret" "ping"])
  /\ (exists w',
        query "ping" (world (Some "secret") (always connection_refused))
        = (Returned
             (None,
              Some ("Error communicating with the Gemini API: "
                    +:+ "Connection refused")),
           w')
        /\ sent w' = 1%nat
        /\ trace w' = [request_ "secret" "ping"]).
Proof.
  split.
  - apply (query_permanent_failure_no_retry "ping" "secret"
             ("404 Client Error: Not Found for url: " +:+ api_url "secret")
             (world (Some "secret") (always (status_response 404 "Not Found")))).
    + reflexivity.
    + discriminate.
    + vm_compute. reflexivity.
  - apply (query_permanent_failure_no_retry "ping" "secret" "Connection refused"
             (world (Some "secret") (always connection_refused))).
    + reflexivity.
    + discriminate.
    + reflexivity.
Defined.

Lemma query_without_credential_witness :
  exists w',
    query "ping" (world None (always connection_refused))
    = (Returned (None, Some "GEMINI_API_KEY not found in configuration."), w')
    /\ w' = world None (always connection_refused)
    /\ sent w' = 0%nat
    /\ trace w' = [].
Proof.
  apply (query_without_credential "ping" (world None (always connection_refused))).
  left. reflexivity.
Defined.

(** C3, the part that holds. With a transport that answers 503 twice and
    then 200, [query] returns the stripped text of the third response and
    has slept 1 and then 2 time units: the delay before retry [k] is
    [base_delay * 2 ^ (k - 1)]. *)
Lemma query_backoff_before_retries :
  exists w',
    query "ping" (world (Some "secret") (twice_503_then_200 "  Hello, Architect. "))
    = (Returned (Some "Hello, Architect.", None), w')
    /\ sent w' = 3%nat
    /\ trace w'
       = [request_ "secret" "ping"; time_sleep (base_delay * 2 ^ (1 - 1));
          request_ "secret" "ping"; time_sleep (base_delay * 2 ^ (2 - 1));
          request_ "secret" "ping"]
    /\ delays (trace w') = [1; 2].
Proof.
  eexists. split_and!.
  - apply (query_succeeds_on_third_attempt "ping" "secret" "  Hello, Architect. "
             (world (Some "secret") (twice_503_then_200 "  Hello, Architect. "))
             (mkResponse 200 "OK" (candidate_body "  Hello, Architect. ")));
      try reflexivity; try discriminate.
    simpl. lia.
  - reflexivity.
  - reflexivity.
  - reflexivity.
Qed.

(** C3, where the code departs from it. With a transport that always
    answers 503 the third and final attempt is followed by a sleep of 4
    time units as well: the delays are 1, 2, 4, and the last thing [query]
    does before it reports the failure is to sleep. *)
Theorem query_sleeps_after_final_attempt :
  exists w',
    query "ping"
      (world (Some "secret") (always (status_response 503 "Service Unavailable")))
    = (Returned (None, Some unavailable_error), w')
    /\ sent w' = max_retries
    /\ trace w'
       = [request_ "secret" "ping"; time_sleep 1;
          request_ "secret" "ping"; time_sleep 2;
          request_ "secret" "ping"; time_sleep 4]
    /\ delays (trace w') = [1; 2; 4]
    /\ last (trace w') = Some (time_sleep 4).
Proof.
  eexists. split_and!.
  - apply (query_three_transient "ping" "secret"
             (world (Some "secret")
                (always (status_response 503 "Service Unavailable"))));
      [reflexivity | discriminate | intros n _; reflexivity].
  - reflexivity.
  - reflexivity.
  - reflexivity.
  - reflexivity.
Qed.

(** ** Faults and failed responses *)

Lemma load_handlers_registry : _load_handlers shipped = registry.
Proof. reflexivity. Qed.

Lemma first_claim_chat (query : string) (w : World) :
  str_contains "commit msg" (lower query) = false ->
  lower query <> "cls" ->
  first_claim query registry w 2 ChatHandler.handler w.
Proof.
  intros Hgit Hsys. unfold registry.
  eapply claim_later.
  { cbn. unfold GitHandler.can_handle, ret. by rewrite Hgit. }
  eapply claim_later.
  { cbn. unfold SystemHandler.can_handle, ret, str_in_list. cbn [existsb].
    destruct (String.eqb (lower query) "cls") eqn:E; [|done].
    by apply String.eqb_eq in E. }
  by apply claim_here.
Qed.

(** What [attempt_request] returns, when it returns, is an answer and no
    error. *)
Lemma attempt_request_returns url prompt w step w' :
  attempt_request url prompt w = (Returned step, w') ->
  exists answer, step = Return (Some answer, None).
Proof.
  unfold attempt_request, bind, lift, ret, post.
  destruct (transport w (sent w)) as [r|e]; [|discriminate].
  destruct (raise_for_status url r _) as [[[]|e] w1]; [|discriminate].
  repeat match goal with
         | |- context [match ?o with Returned _ => _ | Raised _ => _ end] =>
             destruct o; [|discriminate]
         end.
  intros [= <- _]. eauto.
Qed.

Lemma attempt_body_error url prompt attempt w answer err w' :
  attempt_body url prompt attempt w = (Returned (Return (answer, Some err)), w') ->
  err <> "".
Proof.
  unfold attempt_body, try_except.
  destruct (attempt_request url prompt w) as [[step|e] w1] eqn:Hreq.
  - apply attempt_request_returns in Hreq as [a ->]. discriminate.
  - destruct e; simpl; try discriminate.
    + destruct (is_server_error response).
      * unfold bind, effect, ret. discriminate.
      * unfold ret. intros [= _ <- _]. discriminate.
    + unfold ret. intros [= _ <- _]. discriminate.
    + unfold ret. intros [= _ <- _]. discriminate.
Qed.

Lemma for_each_attempts_error url prompt attempts w answer err w' :
  for_each attempts (attempt_body url prompt)
    (ret (None, Some unavailable_error)) w
  = (Returned (answer, Some err), w') ->
  err <> "".
Proof.
  revert w. induction attempts as [|a rest IH]; intros w; cbn [for_each].
  - unfold ret. intros [= _ <- _]. discriminate.
  - unfold bind at 1.
    destruct (attempt_body url prompt a w) as [[[|[ans e]]|exc] w1] eqn:Hb;
      [apply IH| |discriminate].
    unfold ret. intros [= -> -> ->].
    by eapply attempt_body_error.
Qed.

(** Every error text that [query] reports is non-empty, hence truthy. *)
Lemma query_error_truthy prompt w answer err w' :
  query prompt w = (Returned (answer, Some err), w') -> err <> "".
Proof.
  unfold query, bind, read.
  destruct (GEMINI_API_KEY w) as [key|].
  - destruct (String.eqb key "").
    + unfold ret. intros [= _ <- _]. discriminate.
    + apply for_each_attempts_error.
  - unfold ret. intros [= _ <- _]. discriminate.
Qed.

Lemma ChatHandler_failed_on_error (query_ : string) (w w' : World)
    (answer : option string) (err : string) :
  query (ChatHandler._build_personality_prompt query_) w
  = (Returned (answer, Some err), w') ->
  ChatHandler.process query_ w = (Returned (HandlerResponse_ "failed" err), w').
Proof.
  intros Hq. pose proof (query_error_truthy _ _ _ _ _ Hq) as Hne.
  unfold ChatHandler.process, bind. rewrite Hq. cbn [truthy default].
  destruct (String.eqb err "") eqn:E; [by apply String.eqb_eq in E|].
  reflexivity.
Qed.

(** C4, as the code has it. [route_query] has no exception handling of
    its own: the outcome of the selected handler's [process] is the
    outcome of [route_query].  A fault raised by [process] escapes to the
    caller of [route_query]; a response that [process] returns is returned
    unchanged.  A [failed] response with a readable message is what the
    handler itself builds: [ChatHandler.process] does so, with the error
    text as message, whenever [gemini_client.query] reports an error. *)
Theorem route_query_passes_outcome_through {St} (handlers : list (BaseHandler St))
    (query_ : string) (s si : St) (i : nat) (h : BaseHandler St) :
  first_claim query_ handlers s i h si ->
  (forall e s', process h query_ si = (Raised e, s') ->
                route_query handlers query_ s = (Raised e, s'))
  /\ (forall r s', process h query_ si = (Returned r, s') ->
                   route_query handlers query_ s = (Returned r, s'))
  /\ (forall q w w' answer err,
        query (ChatHandler._build_personality_prompt q) w
        = (Returned (answer, Some err), w') ->
        ChatHandler.process q w = (Returned (HandlerResponse_ "failed" err), w')
        /\ status (HandlerResponse_ "failed" err) = "failed"
        /\ display_message (HandlerResponse_ "failed" err) = err
        /\ err <> "").
Proof.
  intros Hc. split_and!.
  - intros e s' Hp. by rewrite (route_query_claim _ _ _ _ _ _ Hc).
  - intros r s' Hp. by rewrite (route_query_claim _ _ _ _ _ _ Hc).
  - intros q w w' answer err Hq. split_and!; try done.
    + by eapply ChatHandler_failed_on_error.
    + by eapply query_error_truthy.
Qed.

Lemma route_query_passes_outcome_through_witness :
  (forall e s',
     process ChatHandler.handler "hello" null_candidates_world = (Raised e, s') ->
     route_query registry "hello" null_candidates_world = (Raised e, s'))
  /\ (forall r s',
        process ChatHandler.handler "hello" null_candidates_world = (Returned r, s') ->
        route_query registry "hello" null_candidates_world = (Returned r, s'))
  /\ (forall q w w' answer err,
        query (ChatHandler._build_personality_prompt q) w
        = (Returned (answer, Some err), w') ->
        ChatHandler.process q w = (Returned (HandlerResponse_ "failed" err), w')
        /\ status (HandlerResponse_ "failed" err) = "failed"
        /\ display_message (HandlerResponse_ "failed" err) = err
        /\ err <> "").
Proof.
  apply (route_query_passes_outcome_through registry "hello"
           null_candidates_world null_candidates_world 2 ChatHandler.handler).
  apply first_claim_chat; [reflexivity | discriminate].
Defined.

(** C4 fails as stated. The registry of the package routes ["hello"] to
    [ChatHandler]; the server answers 200 with [{"candidates": null}];
    subscripting [None] raises [TypeError], which none of the [except]
    clauses of [query] matches, and the fault leaves [ChatHandler.process]
    and [route_query]: the caller gets no response at all, let alone one
    with status [failed].  It is the same with any handler added to the
    package whose [process] raises: [route_query] lets the fault through. *)
Lemma route_query_fault_escapes :
  first_claim "hello" (_load_handlers shipped) null_candidates_world
    2 ChatHandler.handler null_candidates_world
  /\ fst (process ChatHandler.handler "hello" null_candidates_world)
     = Raised TypeError
  /\ fst (route_query (_load_handlers shipped) "hello" null_candidates_world)
     = Raised TypeError
  /\ (~ exists (r : HandlerResponse) (w' : World),
          route_query (_load_handlers shipped) "hello" null_candidates_world
          = (Returned r, w'))
  /\ route_query (_load_handlers (faulty_handler :: shipped)) "hello" offline_world
     = (Raised (OtherError "RuntimeError"), offline_world).
Proof.
  rewrite load_handlers_registry.
  assert (first_claim "hello" registry null_candidates_world
            2 ChatHandler.handler null_candidates_world) as Hc
    by (apply first_claim_chat; [reflexivity | discriminate]).
  assert (fst (process ChatHandler.handler "hello" null_candidates_world)
          = Raised TypeError) as Hp by (vm_compute; reflexivity).
  split_and!.
  - exact Hc.
  - exact Hp.
  - rewrite (route_query_claim _ _ _ _ _ _ Hc). exact Hp.
  - intros (r & w' & Hr).
    rewrite (route_query_claim _ _ _ _ _ _ Hc) in Hr.
    rewrite Hr in Hp. discriminate.
  - reflexivity.
Qed.

Lemma route_query_first_match_witness :
  route_query registry "cls" offline_world
  = (Returned cleared, emit (os_system "clear") offline_world)
  /\ (length (List.filter is_process_call
                [called_can_handle 0; called_can_handle 1; called_process 1])
      <= 1)%nat
  /\ forall i,
       called_process i
       ∈ [called_can_handle 0; called_can_handle 1; called_process 1] ->
       exists h si,
         registry !! i = Some h
         /\ first_claim "cls" registry offline_world i h si
         /\ process h "cls" si
            = (Returned cleared, emit (os_system "clear") offline_world)
         /\ [called_can_handle 0; called_can_handle 1; called_process 1]
            = (called_can_handle <$> seq 0 (S i)) ++ [called_process i].
Proof.
  apply (route_query_first_match registry "cls" offline_world
           (emit (os_system "clear") offline_world) (Returned cleared)
           [called_can_handle 0; called_can_handle 1; called_process 1]).
  reflexivity.
Defined.

Lemma specialised_handlers_decline (query_ : string) (w : World) :
  str_contains "commit msg" (lower query_) = false ->
  lower query_ <> "cls" ->
  all_decline query_ [GitHandler.handler; SystemHandler.handler] w w.
Proof.
  intros Hgit Hsys.
  eapply decline_cons.
  { cbn. unfold GitHandler.can_handle, ret. by rewrite Hgit. }
  eapply decline_cons; [|apply decline_nil].
  cbn. unfold SystemHandler.can_handle, ret, str_in_list. cbn [existsb].
  destruct (String.eqb (lower query_) "cls") eqn:E; [|done].
  by apply String.eqb_eq in E.
Qed.

Lemma route_query_not_handled_witness :
  route_query [GitHandler.handler; SystemHandler.handler] "hello" offline_world
  = (Returned not_handled, offline_world)
  /\ status not_handled = "not_handled"
  /\ display_message not_handled
     = "Sorry, Architect. I don't have a handler for this task."
  /\ exists calls,
       route_query (spies 0 [GitHandler.handler; SystemHandler.handler])
         "hello" (offline_world, [])
       = (Returned not_handled, (offline_world, calls))
       /\ calls = (called_can_handle <$> seq 0 2)
       /\ forall i, called_process i ∉ calls.
Proof.
  apply (route_query_not_handled [GitHandler.handler; SystemHandler.handler]
           "hello" offline_world offline_world).
  apply specialised_handlers_decline; [reflexivity | discriminate].
Defined.

(** ** The handlers' claims *)

(** C10. [SystemHandler.can_handle] answers true exactly when the
    lower-cased query is the string [cls].  The query [clear] is not
    claimed by it; in the registry of the package, [GitHandler] and
    [SystemHandler] decline [clear] and the fallback [ChatHandler], third
    and last, is the one whose [process] runs. *)
Theorem SystemHandler_claims_only_cls (query_ : string) (w : World) :
  (SystemHandler.can_handle query_ w = (Returned true, w) <-> lower query_ = "cls")
  /\ (SystemHandler.can_handle query_ w = (Returned false, w)
      <-> lower query_ <> "cls")
  /\ SystemHandler.can_handle "clear" w = (Returned false, w)
  /\ _load_handlers shipped !! 2%nat = Some ChatHandler.handler
  /\ first_claim "clear" (_load_handlers shipped) w 2 ChatHandler.handler w
  /\ route_query (_load_handlers shipped) "clear" w = ChatHandler.process "clear" w
  /\ snd (snd (route_query (spies 0 (_load_handlers shipped)) "clear" (w, [])))
     = [called_can_handle 0; called_can_handle 1; called_can_handle 2;
        called_process 2].
Proof.
  assert (SystemHandler.can_handle query_ w
          = (Returned (String.eqb (lower query_) "cls"), w)) as Hcan.
  { unfold SystemHandler.can_handle, ret, str_in_list. cbn [existsb].
    by rewrite orb_false_r. }
  assert (first_claim "clear" registry w 2 ChatHandler.handler w) as Hc
    by (apply first_claim_chat; [reflexivity | discriminate]).
  rewrite load_handlers_registry.
  split_and!.
  - rewrite Hcan. split.
    + intros [= E]. by apply String.eqb_eq.
    + intros E. apply String.eqb_eq in E. by rewrite E.
  - rewrite Hcan. split.
    + intros [= E]. by apply String.eqb_neq.
    + intros E. apply String.eqb_neq in E. by rewrite E.
  - reflexivity.
  - reflexivity.
  - exact Hc.
  - by rewrite (route_query_claim _ _ _ _ _ _ Hc).
  - by rewrite (spied_claim _ _ _ _ _ _ Hc 0 []).
Qed.

(** ** The response dataclass *)

Lemma view_Some (st : Store) (self : loc) (v : HandlerResponse) :
  view st self = Some v ->
  exists d,
    instances st !! self
    = Some (mkInstance (Some (status v)) (Some (display_message v)) (Some d))
    /\ dicts st !! d = Some (metadata v).
Proof.
  unfold view. intros H.
  destruct (instances st !! self) as [[[s|] [msg|] [d|]]|] eqn:Ho; try done.
  cbn in H. destruct (dicts st !! d) as [m|] eqn:Hm; [|done]. cbn in H.
  injection H as <-. eauto.
Qed.

Lemma view_of_slots (st : Store) (self d : loc) (s msg : string)
    (m : gmap string PyValue) :
  instances st !! self = Some (mkInstance (Some s) (Some msg) (Some d)) ->
  dicts st !! d = Some m ->
  view st self = Some (mkHandlerResponse s msg m).
Proof. intros Ho Hm. unfold view. rewrite Ho; cbn. by rewrite Hm. Qed.

Lemma init_default (st_ msg : string) (st : Store) :
  __init__ st_ msg None st
  = (Returned (fresh (dom (instances st))),
     mkStore
       (<[fresh (dom (instances st)) :=
            mkInstance (Some st_) (Some msg) (Some (fresh (dom (dicts st))))]>
          (instances st))
       (<[fresh (dom (dicts st)) := ∅]> (dicts st))).
Proof. reflexivity. Qed.

(** A new instance with defaulted metadata reads as the given strings and
    an empty mapping, and leaves the instances already there as they were. *)
Lemma init_default_view (st_ msg : string) (st : Store) :
  exists self st',
    __init__ st_ msg None st = (Returned self, st')
    /\ instances st !! self = None
    /\ view st' self = Some (mkHandlerResponse st_ msg ∅)
    /\ forall other v, view st other = Some v -> view st' other = Some v.
Proof.
  do 2 eexists. split; [apply init_default|].
  pose proof (is_fresh (dom (instances st))) as Hself.
  pose proof (is_fresh (dom (dicts st))) as Hd.
  rewrite not_elem_of_dom in Hself. rewrite not_elem_of_dom in Hd.
  split_and!.
  - done.
  - apply (view_of_slots _ _ (fresh (dom (dicts st)))); cbn;
      by rewrite lookup_insert_eq.
  - intros other [s m md] (d & Ho & Hm)%view_Some. cbn in Ho, Hm.
    apply (view_of_slots _ _ d); cbn.
    + rewrite lookup_insert_ne by (intros <-; congruence). done.
    + rewrite lookup_insert_ne by (intros <-; congruence). done.
Qed.

(** C9, as the code has it. A [HandlerResponse] is frozen: assigning to
    any of its fields or deleting one raises [FrozenInstanceError] and
    leaves the store as it was; [==] on two instances is structural, true
    exactly when the field values agree, wherever the instances and their
    dictionaries live; and [metadata] defaults to a new, empty mapping,
    the construction leaving existing instances untouched.  The mapping
    that [metadata] refers to is an ordinary [dict]: it can be updated in
    place, which shows in the instance; and hashing an instance raises
    [TypeError], a [dict] having no hash. *)
Theorem HandlerResponse_frozen_structural (st : Store) (a b : loc)
    (va vb : HandlerResponse) :
  view st a = Some va -> view st b = Some vb ->
  (forall asg, __setattr__ a asg st = (Raised FrozenInstanceError, st))
  /\ (forall f, __delattr__ a f st = (Raised FrozenInstanceError, st))
  /\ __eq__ a b st = (Returned (bool_decide (va = vb)), st)
  /\ (forall status_ msg,
        exists self st',
          __init__ status_ msg None st = (Returned self, st')
          /\ view st' self = Some (mkHandlerResponse status_ msg ∅)
          /\ view st' a = Some va
          /\ view st' b = Some vb)
  /\ (exists d,
        get_metadata a st = (Returned d, st)
        /\ forall key value,
             exists st',
               dict_setitem d key value st = (Returned tt, st')
               /\ view st' a
                  = Some (mkHandlerResponse (status va) (display_message va)
                            (<[key := value]> (metadata va))))
  /\ (forall str_hash tuple_hash,
        __hash__ str_hash tuple_hash a st = (Raised TypeError, st)).
Proof.
  intros Ha Hb. split_and!.
  - done.
  - done.
  - unfold __eq__. rewrite Ha, Hb. do 2 f_equal.
    destruct va, vb.
    repeat case_bool_decide; simplify_eq; try done; cbn in *; congruence.
  - intros status_ msg.
    destruct (init_default_view status_ msg st) as (self & st' & Hi & _ & Hv & Hold).
    exists self, st'. split_and!; auto.
  - destruct va as [s msg m]. apply view_Some in Ha as (d & Ho & Hm).
    cbn in Ho, Hm. exists d. unfold get_metadata. rewrite Ho. split; [done|].
    intros key value. unfold dict_setitem. rewrite Hm.
    eexists. split; [done|].
    apply (view_of_slots _ _ d); cbn; [done|]. by rewrite lookup_insert_eq.
  - destruct va as [s msg m]. apply view_Some in Ha as (d & Ho & Hm).
    intros str_hash tuple_hash. unfold __hash__. by rewrite Ho.
Qed.

Lemma HandlerResponse_frozen_structural_witness :
  (forall asg, __setattr__ 0%nat asg (snd two_responses)
               = (Raised FrozenInstanceError, snd two_responses))
  /\ (forall f, __delattr__ 0%nat f (snd two_responses)
                = (Raised FrozenInstanceError, snd two_responses))
  /\ __eq__ 0%nat 1%nat (snd two_responses)
     = (Returned (bool_decide (HandlerResponse_ "success" "done"
                               = HandlerResponse_ "success" "done")),
        snd two_responses)
  /\ (forall status_ msg,
        exists self st',
          __init__ status_ msg None (snd two_responses) = (Returned self, st')
          /\ view st' self = Some (mkHandlerResponse status_ msg ∅)
          /\ view st' 0%nat = Some (HandlerResponse_ "success" "done")
          /\ view st' 1%nat = Some (HandlerResponse_ "success" "done"))
  /\ (exists d,
        get_metadata 0%nat (snd two_responses) = (Returned d, snd two_responses)
        /\ forall key value,
             exists st',
               dict_setitem d key value (snd two_responses) = (Returned tt, st')
               /\ view st' 0%nat
                  = Some (mkHandlerResponse "success" "done" (<[key := value]> ∅)))
  /\ (forall str_hash tuple_hash,
        __hash__ str_hash tuple_hash 0%nat (snd two_responses)
        = (Raised TypeError, snd two_responses)).
Proof.
  apply (HandlerResponse_frozen_structural (snd two_responses) 0%nat 1%nat
           (HandlerResponse_ "success" "done") (HandlerResponse_ "success" "done")).
  - vm_compute. reflexivity.
  - vm_compute. reflexivity.
Defined.

(** C9 fails as stated, in two places. The [dict] an instance holds as
    [metadata] is not frozen with it: [r.metadata["k"] = 1] succeeds and
    the instance reads differently afterwards.  And an instance cannot be
    hashed: hashing the tuple of fields reaches the [dict] and raises
    [TypeError], whatever the hash of strings and tuples is. *)
Lemma HandlerResponse_metadata_mutable_and_unhashable :
  exists (self d : loc) (st st' : Store),
    __init__ "success" "done" None empty_store = (Returned self, st)
    /\ view st self = Some (HandlerResponse_ "success" "done")
    /\ get_metadata self st = (Returned d, st)
    /\ dict_setitem d "k" (PyInt 1) st = (Returned tt, st')
    /\ view st' self
       = Some (mkHandlerResponse "success" "done" {["k" := PyInt 1]})
    /\ view st' self <> view st self
    /\ forall str_hash tuple_hash,
         __hash__ str_hash tuple_hash self st = (Raised TypeError, st).
Proof.
  exists 0%nat, 0%nat, (snd one_response).
  eexists. split_and!.
  - vm_compute. reflexivity.
  - vm_compute. reflexivity.
  - vm_compute. reflexivity.
  - vm_compute. reflexivity.
  - vm_compute. reflexivity.
  - vm_compute. discriminate.
  - intros str_hash tuple_hash. reflexivity.
Qed.

(** * Further properties

    ** The registry *)

Lemma load_handlers_perm {St} (l : list (BaseHandler St)) :
  _load_handlers l ≡ₚ l.
Proof.
  unfold _load_handlers.
  destruct (list_find _ _) as [[i fb]|] eqn:Hfind.
  - apply list_find_Some in Hfind as (Hlook & _ & _).
    rewrite <-Permutation_cons_append, <-delete_Permutation by done.
    apply sort_by_name_perm.
  - apply sort_by_name_perm.
Qed.

Lemma NoDup_fmap_eq {A B} (f : A -> B) (l : list A) (x y : A) :
  NoDup (f <$> l) -> x ∈ l -> y ∈ l -> f x = f y -> x = y.
Proof.
  induction l as [|a l IH]; intros Hnd Hx Hy Hf; [by apply elem_of_nil in Hx|].
  rewrite fmap_cons in Hnd. apply NoDup_cons in Hnd as [Ha Hnd].
  apply elem_of_cons in Hx as [->|Hx]; apply elem_of_cons in Hy as [->|Hy].
  - done.
  - exfalso. apply Ha. rewrite Hf. by apply list_elem_of_fmap_2.
  - exfalso. apply Ha. rewrite <-Hf. by apply list_elem_of_fmap_2.
  - by apply IH.
Qed.

Lemma sort_by_name_order_independent {St} (l1 l2 : list (BaseHandler St)) :
  l1 ≡ₚ l2 -> NoDup (class_name <$> l1) ->
  sort_by_name l1 = sort_by_name l2.
Proof.
  intros Hperm Hnd.
  apply (StronglySorted_unique_strong name_le).
  - intros x1 x2 H1 H2 H12 H21.
    rewrite sort_by_name_perm in H1. rewrite sort_by_name_perm, <-Hperm in H2.
    apply (NoDup_fmap_eq class_name l1); try done.
    unfold name_le in *. by apply (anti_symm String.le).
  - apply sort_by_name_sorted.
  - apply sort_by_name_sorted.
  - by rewrite !sort_by_name_perm.
Qed.

(** X1. The registry does not depend on the order in which the directory
    scan delivers the handlers, as long as their class names differ: two
    scans that found the same handlers give the same list. *)
Theorem load_handlers_order_independent {St} (l1 l2 : list (BaseHandler St)) :
  l1 ≡ₚ l2 -> NoDup (class_name <$> l1) ->
  _load_handlers l1 = _load_handlers l2.
Proof.
  intros Hperm Hnd. unfold _load_handlers.
  by rewrite (sort_by_name_order_independent l1 l2).
Qed.

Lemma load_handlers_order_independent_witness :
  _load_handlers [SystemHandler.handler; ChatHandler.handler; GitHandler.handler]
  = _load_handlers [GitHandler.handler; SystemHandler.handler; ChatHandler.handler].
Proof.
  apply load_handlers_order_independent.
  - symmetry.
    apply (Permutation_cons_append
             [SystemHandler.handler; ChatHandler.handler] GitHandler.handler).
  - apply (bool_decide_unpack _). vm_compute. exact I.
Defined.

(** X2. Without an instance of [ChatHandler] among the discovered
    handlers nothing is moved: the registry is the discovered handlers in
    ascending order of class name, all of them and no other. *)
Theorem load_handlers_without_fallback {St} (discovered : list (BaseHandler St)) :
  Forall (fun h => isinstance_ChatHandler h = false) discovered ->
  _load_handlers discovered = sort_by_name discovered
  /\ StronglySorted name_le (_load_handlers discovered)
  /\ _load_handlers discovered ≡ₚ discovered.
Proof.
  intros Hall. destruct (load_handlers_no_fallback discovered Hall) as [He Hs].
  split_and!; [done|done|apply load_handlers_perm].
Qed.

Lemma load_handlers_without_fallback_witness :
  _load_handlers [SystemHandler.handler; GitHandler.handler]
  = sort_by_name [SystemHandler.handler; GitHandler.handler]
  /\ StronglySorted name_le
       (_load_handlers [SystemHandler.handler; GitHandler.handler])
  /\ _load_handlers [SystemHandler.handler; GitHandler.handler]
     ≡ₚ [SystemHandler.handler; GitHandler.handler].
Proof.
  apply load_handlers_without_fallback. repeat constructor.
Defined.

(** X3. With a handler in the registry that claims every query, as the
    fallback does, the scan of [route_query] never runs off the end of the
    list: either some handler claims the query, and its [process] is what
    runs, or a [can_handle] raised on the way. *)
Theorem route_query_with_fallback {St} (discovered : list (BaseHandler St))
    (fallback : BaseHandler St) (query_ : string) (s : St) :
  fallback ∈ discovered ->
  (forall s0, can_handle fallback query_ s0 = (Returned true, s0)) ->
  (forall s', ~ all_decline query_ (_load_handlers discovered) s s')
  /\ ((exists i h si,
         first_claim query_ (_load_handlers discovered) s i h si
         /\ route_query (_load_handlers discovered) query_ s = process h query_ si)
      \/ (exists i e s',
            can_handle_raises query_ (_load_handlers discovered) s i e s'
            /\ route_query (_load_handlers discovered) query_ s = (Raised e, s'))).
Proof.
  intros Hin Hclaims.
  assert (fallback ∈ _load_handlers discovered) as Hin'
    by (by rewrite load_handlers_perm).
  assert (forall handlers s s', fallback ∈ handlers ->
            ~ all_decline query_ handlers s s') as Hno.
  { intros handlers s0 s' Hf Hd. induction Hd as [|h rest s0 s1 s' Hc Hd IH].
    - by apply elem_of_nil in Hf.
    - apply elem_of_cons in Hf as [<-|Hf]; [|by apply IH].
      rewrite Hclaims in Hc. discriminate. }
  split; [intros s'; by apply Hno|].
  destruct (scan_cases query_ (_load_handlers discovered) s)
    as [(i & h & si & Hc)|[(s' & Hd)|(i & e & s' & Hr)]].
  - left. exists i, h, si. split; [done|]. by eapply route_query_claim.
  - exfalso. by apply (Hno _ _ _ Hin' Hd).
  - right. exists i, e, s'. split; [done|]. by eapply route_query_raises.
Qed.

Lemma route_query_with_fallback_witness :
  (forall s', ~ all_decline "hello" (_load_handlers shipped) offline_world s')
  /\ ((exists i h si,
         first_claim "hello" (_load_handlers shipped) offline_world i h si
         /\ route_query (_load_handlers shipped) "hello" offline_world
            = process h "hello" si)
      \/ (exists i e s',
            can_handle_raises "hello" (_load_handlers shipped) offline_world i e s'
            /\ route_query (_load_handlers shipped) "hello" offline_world
               = (Raised e, s'))).
Proof.
  apply (route_query_with_fallback shipped ChatHandler.handler "hello" offline_world).
  - apply list_elem_of_here.
  - intros s0. reflexivity.
Defined.

(** X4. The dispatch of the package's three handlers, in whatever order
    the scan found them: a query containing [commit msg] (in any case)
    goes to [GitHandler]; otherwise the query [cls] (in any case) goes to
    [SystemHandler]; everything else goes to [ChatHandler]. *)
Theorem shipped_dispatch (discovered : list (BaseHandler World))
    (query_ : string) (w : World) :
  discovered ≡ₚ shipped ->
  route_query (_load_handlers discovered) query_ w
  = if str_contains "commit msg" (lower query_) then GitHandler.process query_ w
    else if String.eqb (lower query_) "cls" then SystemHandler.process query_ w
    else ChatHandler.process query_ w.
Proof.
  intros Hperm. rewrite (load_handlers_shipped _ Hperm).
  rewrite route_query_cons. cbn [can_handle GitHandler.handler].
  unfold GitHandler.can_handle, ret.
  destruct (str_contains "commit msg" (lower query_)); [done|].
  rewrite route_query_cons. cbn [can_handle SystemHandler.handler].
  unfold SystemHandler.can_handle, ret, str_in_list. cbn [existsb].
  rewrite orb_false_r.
  destruct (String.eqb (lower query_) "cls"); [done|].
  rewrite route_query_cons. reflexivity.
Qed.

Lemma shipped_dispatch_witness :
  route_query (_load_handlers shipped) "Commit MSG please" offline_world
  = GitHandler.process "Commit MSG please" offline_world.
Proof.
  apply (shipped_dispatch shipped "Commit MSG please" offline_world).
  reflexivity.
Defined.

(** ** The retry client, in general *)

Lemma advance_0 (w : World) : advance w 0 [] = w.
Proof. destruct w. unfold advance; cbn. by rewrite Nat.add_0_r, app_nil_r. Qed.

Lemma advance_step (w : World) (url prompt : string) (a k : nat) :
  advance (emit (time_sleep (base_delay * 2 ^ Z.of_nat a)) (posted url prompt w))
    k (retries url prompt (S a) k)
  = advance w (S k) (retries url prompt a (S k)).
Proof.
  destruct w. unfold advance, posted, count_request, emit; cbn.
  f_equal; [lia|]. by rewrite <-!app_assoc.
Qed.

(** [k] transient failures use up [k] attempts and leave the loop to go
    on with the next one. *)
Lemma for_each_after_transients (url prompt : string) (after : Py Answer)
    (k a n : nat) (w : World) :
  (forall i, (i < k)%nat -> is_transient (transport w (sent w + i)) = true) ->
  for_each (map Z.of_nat (seq a (k + n))) (attempt_body url prompt) after w
  = for_each (map Z.of_nat (seq (a + k) n)) (attempt_body url prompt) after
      (advance w k (retries url prompt a k)).
Proof.
  revert a w. induction k as [|k IH]; intros a w Hall.
  - cbn [Nat.add retries]. by rewrite Nat.add_0_r, advance_0.
  - cbn [Nat.add seq map for_each]. unfold bind at 1.
    rewrite attempt_body_transient
      by (specialize (Hall 0%nat ltac:(lia)); by rewrite Nat.add_0_r in Hall).
    rewrite IH.
    + rewrite advance_step. by replace (S a + k)%nat with (a + S k)%nat by lia.
    + intros i Hi. specialize (Hall (S i) ltac:(lia)).
      destruct w; cbn in *. by rewrite Nat.add_succ_r in Hall.
Qed.

Lemma query_after_transients (prompt key : string) (k : nat) (w : World) :
  GEMINI_API_KEY w = Some key -> key <> "" -> (k <= max_retries)%nat ->
  (forall i, (i < k)%nat -> is_transient (transport w (sent w + i)) = true) ->
  query prompt w
  = for_each (map Z.of_nat (seq k (max_retries - k)))
      (attempt_body (api_url key) prompt) (ret (None, Some unavailable_error))
      (advance w k (retries (api_url key) prompt 0 k)).
Proof.
  intros Hk Hne Hle Hall.
  rewrite (query_with_key _ _ _ Hk Hne). unfold range.
  replace max_retries with (k + (max_retries - k))%nat at 1 by lia.
  by rewrite for_each_after_transients.
Qed.



Lemma seq_cons_sub (k n : nat) :
  (k < n)%nat -> seq k (n - k) = k :: seq (S k) (n - S k).
Proof. intros H. replace (n - k)%nat with (S (n - S k)) by lia. done. Qed.

(** The attempt that follows [k] transient failures, when there is one. *)
Lemma query_attempt_after_transients (prompt key : string) (k : nat) (w : World) :
  GEMINI_API_KEY w = Some key -> key <> "" -> (k < max_retries)%nat ->
  (forall i, (i < k)%nat -> is_transient (transport w (sent w + i)) = true) ->
  query prompt w
  = match attempt_body (api_url key) prompt (Z.of_nat k)
            (advance w k (retries (api_url key) prompt 0 k)) with
    | (Returned (Return a), w') => (Returned a, w')
    | (Returned Continue, w') =>
        for_each (map Z.of_nat (seq (S k) (max_retries - S k)))
          (attempt_body (api_url key) prompt) (ret (None, Some unavailable_error)) w'
    | (Raised e, w') => (Raised e, w')
    end.
Proof.
  intros Hk Hne Hlt Hall.
  rewrite (query_after_transients prompt key k w) by (try done; lia).
  rewrite seq_cons_sub by done. cbn [map for_each]. unfold bind at 1.
  destruct (attempt_body _ _ _ _) as [[[|a]|e] w']; reflexivity.
Qed.

Lemma posted_advance (w : World) (url prompt : string) (k : nat) (evs : list Event) :
  posted url prompt (advance w k evs)
  = advance w (S k) (evs ++ [requests_post url prompt 120]).
Proof.
  destruct w. unfold advance, posted, count_request, emit; cbn.
  f_equal; [lia|]. by rewrite <-app_assoc.
Qed.



(** X6. Retrying stops at the first failure that is not transient. If
    the first [k] attempts fail with a server error and the next one with
    a client error or a request exception without a 5xx response, [query]
    returns the communication error after [k + 1] requests and [k]
    sleeps; the remaining attempts are not made. *)
Theorem query_stops_at_permanent_failure (prompt key text : string) (k : nat)
    (w : World) :
  GEMINI_API_KEY w = Some key -> key <> "" -> (k < max_retries)%nat ->
  (forall i, (i < k)%nat -> is_transient (transport w (sent w + i)) = true) ->
  permanent_failure (api_url key) (transport w (sent w + k)) = Some text ->
  exists w',
    query prompt w = (Returned (None, Some (communication_error text)), w')
    /\ sent w' = (sent w + S k)%nat
    /\ trace w'
       = trace w ++ retries (api_url key) prompt 0 k
                 ++ [requests_post (api_url key) prompt 120].
Proof.
  intros Hk Hne Hlt Hall Hp.
  rewrite (query_attempt_after_transients prompt key k w) by done.
  rewrite (attempt_body_permanent _ _ _ _ text) by exact Hp.
  rewrite posted_advance. eexists. split; [reflexivity|]. split; reflexivity.
Qed.

Lemma query_stops_at_permanent_failure_witness :
  exists w',
    query "ping"
      (world (Some "secret")
         (fun n => match n with
                   | O => status_response 503 "Service Unavailable"
                   | _ => connection_refused
                   end))
    = (Returned (None, Some (communication_error "Connection refused")), w')
    /\ sent w' = 2%nat
    /\ trace w'
       = [request_ "secret" "ping"; time_sleep 1; request_ "secret" "ping"].
Proof.
  apply (query_stops_at_permanent_failure "ping" "secret" "Connection refused" 1
           (world (Some "secret")
              (fun n => match n with
                        | O => status_response 503 "Service Unavailable"
                        | _ => connection_refused
                        end))).
  - reflexivity.
  - discriminate.
  - unfold max_retries. lia.
  - intros i Hi. destruct i; [reflexivity | lia].
  - reflexivity.
Defined.







Lemma http_error_msg_ok (url : string) (r : Response) :
  status_ok r = true -> http_error_msg url r = None.
Proof.
  unfold status_ok, http_error_msg. intros H. apply negb_true_iff in H.
  replace ((400 <=? status_code r) && (status_code r <? 500)) with false
    by (symmetry; apply andb_false_iff; apply andb_false_iff in H; lia).
  replace ((500 <=? status_code r) && (status_code r <? 600)) with false
    by (symmetry; apply andb_false_iff; apply andb_false_iff in H; lia).
  done.
Qed.








Lemma attempt_body_answer_shape url prompt attempt w a e w' :
  attempt_body url prompt attempt w = (Returned (Return (a, e)), w') ->
  (exists s, a = Some s /\ e = None)
  \/ (a = None /\ exists err, e = Some err /\ err <> "").
Proof.
  intros H.
  destruct e as [err|].
  - pose proof (attempt_body_error _ _ _ _ _ _ _ H) as Hne.
    right. split; [|eauto].
    revert H. unfold attempt_body, try_except.
    destruct (attempt_request url prompt w) as [[step|exc] w1] eqn:Hreq.
    + apply attempt_request_returns in Hreq as [s ->]. discriminate.
    + destruct exc; cbn [on_exception]; try discriminate.
      * destruct (is_server_error response); [discriminate|].
        unfold ret. by intros [= <- _ _].
      * unfold ret. by intros [= <- _ _].
      * unfold ret. by intros [= <- _ _].
  - left. revert H. unfold attempt_body, try_except.
    destruct (attempt_request url prompt w) as [[step|exc] w1] eqn:Hreq.
    + apply attempt_request_returns in Hreq as [s ->]. intros [= <- _]. eauto.
    + destruct exc; cbn [on_exception]; try discriminate.
      destruct (is_server_error response); discriminate.
Qed.

(** X9. What [query] returns is a text or an error, never both and never
    neither: either the first slot holds the answer and the second is
    [None], or the first is [None] and the second holds a non-empty
    message, which the callers' [if error:] therefore sees. *)
Theorem query_returns_text_or_error (prompt : string) (w w' : World)
    (a e : option string) :
  query prompt w = (Returned (a, e), w') ->
  (exists s, a = Some s /\ e = None)
  \/ (a = None /\ exists err, e = Some err /\ err <> "" /\ truthy e = true).
Proof.
  assert (forall attempts url w0,
            for_each attempts (attempt_body url prompt)
              (ret (None, Some unavailable_error)) w0
            = (Returned (a, e), w') ->
            (exists s, a = Some s /\ e = None)
            \/ (a = None /\ exists err, e = Some err /\ err <> "")) as Hloop.
  { induction attempts as [|x rest IH]; intros url w0; cbn [for_each].
    - unfold ret. intros [= <- <- _]. right. split; [done|].
      eexists. split; [done|discriminate].
    - unfold bind at 1.
      destruct (attempt_body url prompt x w0) as [[[|[a0 e0]]|exc] w1] eqn:Hb;
        [apply IH| |discriminate].
      unfold ret. intros [= -> -> ->]. by eapply attempt_body_answer_shape. }
  assert ((exists s, a = Some s /\ e = None)
          \/ (a = None /\ exists err, e = Some err /\ err <> "") ->
          (exists s, a = Some s /\ e = None)
          \/ (a = None /\ exists err, e = Some err /\ err <> "" /\ truthy e = true))
    as Htruthy.
  { intros [?|(-> & err & -> & Hne)]; [by left|right].
    split; [done|]. exists err. split_and!; try done.
    cbn. destruct (String.eqb err "") eqn:E; [|done].
    by apply String.eqb_eq in E. }
  intros Hq. apply Htruthy. revert Hq. unfold query, bind, read.
  destruct (GEMINI_API_KEY w) as [key|].
  - destruct (String.eqb key "").
    + unfold ret. intros [= <- <- _]. right. split; [done|].
      eexists. split; [done|discriminate].
    + apply Hloop.
  - unfold ret. intros [= <- <- _]. right. split; [done|].
    eexists. split; [done|discriminate].
Qed.

Lemma query_returns_text_or_error_witness :
  (exists s, @None string = Some s /\ Some config_error = None)
  \/ (@None string = None
      /\ exists err, Some config_error = Some err /\ err <> ""
                     /\ truthy (Some config_error) = true).
Proof.
  apply (query_returns_text_or_error "ping" (world None (always connection_refused))
           (world None (always connection_refused)) None (Some config_error)).
  reflexivity.
Defined.

(** ** The handlers *)

Lemma prefix_spec (a b : string) :
  String.prefix a b = true <-> exists c, b = a +:+ c.
Proof.
  revert b. induction a as [|x a IH]; intros b.
  - split; [intros _; by exists b | intros _; by destruct b].
  - destruct b as [|y b]; cbn.
    + split; [done | intros [c Hc]; discriminate].
    + destruct (ascii_dec x y) as [->|Hxy].
      * rewrite IH.
        split; intros [c Hc]; exists c;
          change (String y a +:+ c) with (String y (a +:+ c)) in *; congruence.
      * split; [done|]. intros [c Hc].
        change (String x a +:+ c) with (String x (a +:+ c)) in Hc. congruence.
Qed.

Lemma str_contains_unfold (needle haystack : string) :
  str_contains needle haystack
  = String.prefix needle haystack
    || match haystack with
       | EmptyString => false
       | String _ rest => str_contains needle rest
       end.
Proof. by destruct haystack. Qed.

(** [needle in haystack] holds exactly when the haystack can be cut around
    an occurrence of the needle. *)
Lemma str_contains_spec (needle haystack : string) :
  str_contains needle haystack = true
  <-> exists pre post, haystack = pre +:+ needle +:+ post.
Proof.
  split.
  - induction haystack as [|c h IH]; rewrite str_contains_unfold, orb_true_iff.
    + intros [Hp|?]; [|done]. apply prefix_spec in Hp as [post ->].
      by exists "", post.
    + intros [Hp|Hc].
      * apply prefix_spec in Hp as [post ->]. by exists "", post.
      * destruct (IH Hc) as (pre & post & ->). by exists (String c pre), post.
  - intros (pre & post & ->). induction pre as [|c pre IH].
    + rewrite str_contains_unfold, orb_true_iff. left.
      apply prefix_spec. by exists post.
    + rewrite str_contains_unfold, orb_true_iff. right. exact IH.
Qed.

(** X10. [GitHandler.can_handle] never raises and never touches the
    world; it answers true exactly when the lower-cased query contains
    [commit msg] somewhere, whatever surrounds it. *)
Theorem GitHandler_claims_commit_msg (query_ : string) (w : World) :
  (exists b, GitHandler.can_handle query_ w = (Returned b, w))
  /\ (GitHandler.can_handle query_ w = (Returned true, w)
      <-> exists pre post, lower query_ = pre +:+ "commit msg" +:+ post).
Proof.
  unfold GitHandler.can_handle, ret. split; [eauto|].
  rewrite <-str_contains_spec. split; [by intros [= ->] | by intros ->].
Qed.

(** X11. When [_get_staged_diff] returns, it returns a diff or an error,
    never both and never neither: a non-empty diff with no error, or no
    diff with a non-empty message.  It ran [git diff --staged] once and
    did nothing else.  Failures of [git] other than a non-zero exit and a
    missing executable are not caught. *)
Theorem get_staged_diff_shape (w w' : World) (diff error : option string) :
  GitHandler._get_staged_diff w = (Returned (diff, error), w') ->
  w' = emit git_diff_command w
  /\ ((exists text, diff = Some text /\ text <> "" /\ error = None
                    /\ git_diff_staged w = Returned text)
      \/ (diff = None
          /\ exists err, error = Some err /\ err <> ""
                         /\ git_failure (git_diff_staged w) = Some err)).
Proof.
  unfold GitHandler._get_staged_diff, try_except, bind, effect, ret.
  cbn [git_diff_staged emit].
  destruct (git_diff_staged w) as [stdout|e] eqn:Hg.
  - destruct (String.eqb stdout "") eqn:E.
    + intros [= <- <- <-]. split; [done|]. right. split; [done|].
      eexists. split_and!; [done|discriminate|]. cbn. by rewrite E.
    + intros [= <- <- <-]. split; [done|]. left.
      exists stdout. split_and!; try done. by apply String.eqb_neq.
  - destruct e; try discriminate.
    + intros [= <- <- <-]. split; [done|]. right. split; [done|].
      eexists. split_and!; [done|discriminate|done].
    + intros [= <- <- <-]. split; [done|]. right. split; [done|].
      eexists. split_and!; [done|discriminate|done].
Qed.

Lemma get_staged_diff_shape_witness :
  emit git_diff_command offline_world = emit git_diff_command offline_world
  /\ ((exists text, @None string = Some text /\ text <> ""
                    /\ Some "There are no changes staged. Use 'git add <file>' first."
                       = None
                    /\ git_diff_staged offline_world = Returned text)
      \/ (@None string = None
          /\ exists err,
               Some "There are no changes staged. Use 'git add <file>' first."
               = Some err
               /\ err <> ""
               /\ git_failure (git_diff_staged offline_world) = Some err)).
Proof.
  apply (get_staged_diff_shape offline_world (emit git_diff_command offline_world)
           None (Some "There are no changes staged. Use 'git add <file>' first.")).
  reflexivity.
Defined.

Lemma get_staged_diff_failure (w : World) (err : string) :
  git_failure (git_diff_staged w) = Some err ->
  GitHandler._get_staged_diff w
  = (Returned (None, Some err), emit git_diff_command w)
  /\ err <> "".
Proof.
  unfold GitHandler._get_staged_diff, try_except, bind, effect, ret, git_failure.
  cbn [git_diff_staged emit].
  destruct (git_diff_staged w) as [stdout|e] eqn:Hg.
  - destruct (String.eqb stdout ""); [|done]. intros [= <-]. by split.
  - destruct e; try done; intros [= <-]; by split.
Qed.

(** X12. Without a diff to work on (nothing staged, [git] failing or
    missing) [GitHandler.process] returns a [failed] response with the
    matching message and never contacts the API: the only effect is the
    one run of [git diff --staged], with or without a key configured. *)
Theorem GitHandler_fails_without_diff (query_ err : string) (w : World) :
  git_failure (git_diff_staged w) = Some err ->
  GitHandler.process query_ w
  = (Returned (HandlerResponse_ "failed" err), emit git_diff_command w)
  /\ sent (snd (GitHandler.process query_ w)) = sent w
  /\ trace (snd (GitHandler.process query_ w)) = trace w ++ [git_diff_command].
Proof.
  intros Hf. destruct (get_staged_diff_failure w err Hf) as [Hd Hne].
  assert (GitHandler.process query_ w
          = (Returned (HandlerResponse_ "failed" err), emit git_diff_command w))
    as Hp.
  { unfold GitHandler.process, bind at 1. rewrite Hd. cbn [truthy default].
    destruct (String.eqb err "") eqn:E; [by apply String.eqb_eq in E|].
    reflexivity. }
  by rewrite Hp.
Qed.

Lemma GitHandler_fails_without_diff_witness :
  GitHandler.process "commit msg"
    offline_world
  = (Returned
       (HandlerResponse_ "failed"
          "There are no changes staged. Use 'git add <file>' first."),
     emit git_diff_command offline_world)
  /\ sent (snd (GitHandler.process "commit msg" offline_world)) = sent offline_world
  /\ trace (snd (GitHandler.process "commit msg" offline_world))
     = trace offline_world ++ [git_diff_command].
Proof.
  apply (GitHandler_fails_without_diff "commit msg"
           "There are no changes staged. Use 'git add <file>' first."
           offline_world).
  reflexivity.
Defined.

Lemma reply_response_spec (frame : string -> string) (prompt : string) (w : World) :
  (reply <- query prompt ;;
   let '(answer, error) := reply in
   if truthy error then ret (HandlerResponse_ "failed" (default "" error))
   else ret (HandlerResponse_ "success" (frame (default "None" answer))))%py w
  = reply_response frame (query prompt w).
Proof.
  unfold bind.
  destruct (query prompt w) as [[[a e]|exc] w'] eqn:Hq; [|done].
  destruct (query_returns_text_or_error _ _ _ _ _ Hq)
    as [(s & -> & ->)|(-> & err & -> & Hne & Ht)].
  - done.
  - rewrite Ht. done.
Qed.

(** X13. With a diff staged, [GitHandler.process] asks [query] with the
    prompt built from that diff (the user's text is not part of it) and
    turns the reply into a response: the suggestion framed by two rules
    with status [success], or [query]'s error text with status [failed];
    a fault of [query] passes through. *)
Theorem GitHandler_with_diff (query_ diff : string) (w : World) :
  git_diff_staged w = Returned diff -> diff <> "" ->
  GitHandler.process query_ w
  = reply_response commit_suggestion
      (query (GitHandler._build_prompt diff) (emit git_diff_command w)).
Proof.
  intros Hg Hne.
  assert (GitHandler._get_staged_diff w
          = (Returned (Some diff, None), emit git_diff_command w)) as Hd.
  { unfold GitHandler._get_staged_diff, try_except, bind, effect, ret.
    cbn [git_diff_staged emit]. rewrite Hg.
    destruct (String.eqb diff "") eqn:E; [by apply String.eqb_eq in E|done]. }
  unfold GitHandler.process, bind at 1. rewrite Hd. cbn [truthy default].
  apply (reply_response_spec commit_suggestion).
Qed.

Lemma GitHandler_with_diff_witness :
  GitHandler.process "commit msg"
    (mkWorld (Some "secret") "Linux" (Returned "+ new line")
       (always connection_refused) 0 [])
  = reply_response commit_suggestion
      (query (GitHandler._build_prompt "+ new line")
         (emit git_diff_command
            (mkWorld (Some "secret") "Linux" (Returned "+ new line")
               (always connection_refused) 0 []))).
Proof.
  apply (GitHandler_with_diff "commit msg" "+ new line"
           (mkWorld (Some "secret") "Linux" (Returned "+ new line")
              (always connection_refused) 0 [])).
  - reflexivity.
  - discriminate.
Defined.

(** X14. [ChatHandler.process] is [query] on the persona prompt with the
    reply turned into a response: the answer framed with status
    [success], or the error text with status [failed]; a fault of [query]
    passes through.  It has no effect of its own. *)
Theorem ChatHandler_process_reply (query_ : string) (w : World) :
  ChatHandler.process query_ w
  = reply_response chat_answer
      (query (ChatHandler._build_personality_prompt query_) w).
Proof.
  unfold ChatHandler.process. apply (reply_response_spec chat_answer).
Qed.

Lemma reply_response_status (frame : string -> string)
    (reply : Outcome Answer * World) (r : HandlerResponse) (w' : World) :
  reply_response frame reply = (Returned r, w') ->
  status r = "success" \/ status r = "failed".
Proof.
  destruct reply as [[[[a|] [e|]]|exc] w1]; cbn; intros [= <- _]; auto.
Qed.

Lemma GitHandler_process_status (query_ : string) (w w' : World)
    (r : HandlerResponse) :
  GitHandler.process query_ w = (Returned r, w') ->
  status r = "success" \/ status r = "failed".
Proof.
  destruct (git_failure (git_diff_staged w)) as [err|] eqn:Hf.
  - destruct (GitHandler_fails_without_diff query_ err w Hf) as [-> _].
    intros [= <- _]. by right.
  - destruct (git_diff_staged w) as [diff|e] eqn:Hg.
    + cbn in Hf. destruct (String.eqb diff "") eqn:E; [discriminate|].
      apply String.eqb_neq in E.
      rewrite (GitHandler_with_diff query_ diff w Hg E).
      apply reply_response_status.
    + unfold GitHandler.process, bind at 1.
      unfold GitHandler._get_staged_diff, try_except, bind, effect, ret.
      cbn [git_diff_staged emit]. rewrite Hg.
      destruct e; cbn in Hf; discriminate.
Qed.

(** X15. Every response that the package's three handlers hand back
    through [route_query] has status [success] or [failed]; so
    [display_response] shows it with the check mark or with
    "Execution failed", and never falls to its "Unknown response" branch
    (nor, with the fallback in place, to the apology). *)
Theorem shipped_responses_are_displayed (discovered : list (BaseHandler World))
    (repr : HandlerResponse -> string) (query_ : string) (w w' : World)
    (r : HandlerResponse) :
  discovered ≡ₚ shipped ->
  route_query (_load_handlers discovered) query_ w = (Returned r, w') ->
  (status r = "success"
   /\ display_response repr r = "✅ " +:+ display_message r)
  \/ (status r = "failed"
      /\ display_response repr r = "❌ Execution failed: " +:+ display_message r).
Proof.
  intros Hperm Hr.
  assert (status r = "success" \/ status r = "failed") as [Hs|Hs].
  { rewrite (shipped_dispatch _ _ _ Hperm) in Hr.
    destruct (str_contains "commit msg" (lower query_)).
    - by eapply GitHandler_process_status.
    - destruct (String.eqb (lower query_) "cls").
      + revert Hr. unfold SystemHandler.process, SystemHandler._clear_screen,
          bind, read, effect, ret. intros [= <- _]. by left.
      + rewrite ChatHandler_process_reply in Hr.
        by eapply reply_response_status. }
  - left. split; [done|]. unfold display_response. by rewrite Hs.
  - right. split; [done|]. unfold display_response. by rewrite Hs.
Qed.

Lemma shipped_responses_are_displayed_witness :
  (status cleared = "success"
   /\ display_response (fun _ => "") cleared = "✅ " +:+ display_message cleared)
  \/ (status cleared = "failed"
      /\ display_response (fun _ => "") cleared
         = "❌ Execution failed: " +:+ display_message cleared).
Proof.
  apply (shipped_responses_are_displayed shipped (fun _ => "") "cls"
           offline_world (emit (os_system "clear") offline_world) cleared).
  - reflexivity.
  - reflexivity.
Defined.

(** ** The interactive session *)

Section Session.
Variables (repr : HandlerResponse -> string) (str : PyExc -> string).
Variable handlers : list (BaseHandler World).




End Session.

(** ** The file filter of the handler scan *)

Lemma append_cons (c : ascii) (a b : string) :
  String c a +:+ b = String c (a +:+ b).
Proof. reflexivity. Qed.

Lemma length_append (a b : string) :
  String.length (a +:+ b) = (String.length a + String.length b)%nat.
Proof.
  induction a as [|c a IH]; [done|].
  rewrite append_cons. cbn [String.length]. by rewrite IH.
Qed.

Lemma substring_append (a b : string) :
  substring 0 (String.length a) (a +:+ b) = a.
Proof.
  induction a as [|c a IH].
  - by destruct b.
  - rewrite append_cons. cbn [String.length substring]. by rewrite IH.
Qed.

Lemma drop_last_append (a b : string) :
  drop_last (String.length b) (a +:+ b) = a.
Proof.
  unfold drop_last. rewrite length_append.
  replace (String.length a + String.length b - String.length b)%nat
    with (String.length a) by lia.
  apply substring_append.
Qed.

Lemma endswith_unfold (suffix s : string) :
  endswith suffix s
  = String.eqb s suffix
    || match s with
       | EmptyString => false
       | String _ rest => endswith suffix rest
       end.
Proof. by destruct s. Qed.

Lemma endswith_spec (suffix s : string) :
  endswith suffix s = true <-> exists pre, s = pre +:+ suffix.
Proof.
  split.
  - induction s as [|c s IH]; rewrite endswith_unfold, orb_true_iff.
    + intros [E|?]; [|done]. apply String.eqb_eq in E as <-. by exists "".
    + intros [E|H].
      * apply String.eqb_eq in E as <-. by exists "".
      * destruct (IH H) as [pre ->]. by exists (String c pre).
  - intros [pre ->]. induction pre as [|c pre IH].
    + rewrite endswith_unfold, orb_true_iff. left. apply String.eqb_refl.
    + rewrite append_cons, endswith_unfold, orb_true_iff. by right.
Qed.

(** X19. A directory entry that the scan accepts is [stem.py] for some
    stem, it is imported as [orpheus.query_handlers.stem] (cutting the
    last three characters gives back the stem), it does not start with two
    underscores and [base_handler] occurs nowhere in it; conversely any
    name that does not end in [.py] is skipped. *)
Theorem handler_file_module_path (filename : string) :
  (is_handler_file filename = true ->
   exists stem,
     filename = stem +:+ ".py"
     /\ module_path filename = "orpheus.query_handlers." +:+ stem
     /\ startswith "__" filename = false
     /\ str_contains "base_handler" filename = false)
  /\ ((forall stem, filename <> stem +:+ ".py") -> is_handler_file filename = false).
Proof.
  unfold is_handler_file. split.
  - intros H. apply andb_true_iff in H as [H Hbase].
    apply andb_true_iff in H as [Hpy Hdunder].
    apply negb_true_iff in Hbase. apply negb_true_iff in Hdunder.
    apply endswith_spec in Hpy as [stem ->].
    exists stem. split_and!; try done.
    unfold module_path. f_equal. apply (drop_last_append stem ".py").
  - intros Hno. destruct (endswith ".py" filename) eqn:Hpy; [|done].
    apply endswith_spec in Hpy as [stem ->]. by destruct (Hno stem).
Qed.

(** ** The response dataclass, continued *)

Lemma init_with (st_ msg : string) (d : loc) (st : Store) :
  __init__ st_ msg (Some d) st
  = (Returned (fresh (dom (instances st))),
     mkStore
       (<[fresh (dom (instances st)) := mkInstance (Some st_) (Some msg) (Some d)]>
          (instances st))
       (dicts st)).
Proof. reflexivity. Qed.

(** X20. Each response constructed without [metadata] gets a dictionary
    of its own: writing into the metadata of a new response shows in that
    response and in no response that was there before. *)
Theorem default_metadata_not_shared (st st1 st2 : Store) (st_ msg key : string)
    (value : PyValue) (self d other : loc) (v : HandlerResponse) :
  view st other = Some v ->
  __init__ st_ msg None st = (Returned self, st1) ->
  get_metadata self st1 = (Returned d, st1) ->
  dict_setitem d key value st1 = (Returned tt, st2) ->
  view st2 self = Some (mkHandlerResponse st_ msg {[key := value]})
  /\ view st2 other = Some v
  /\ self <> other.
Proof.
  intros Hother Hinit Hget Hset.
  rewrite init_default in Hinit. injection Hinit as <- <-.
  pose proof (is_fresh (dom (instances st))) as Hself.
  pose proof (is_fresh (dom (dicts st))) as Hd.
  rewrite not_elem_of_dom in Hself. rewrite not_elem_of_dom in Hd.
  destruct v as [s m md]. apply view_Some in Hother as (d0 & Ho & Hm).
  cbn in Ho, Hm.
  unfold get_metadata in Hget. cbn in Hget.
  rewrite lookup_insert_eq in Hget. cbn in Hget. injection Hget as <-.
  unfold dict_setitem in Hset. cbn in Hset.
  rewrite lookup_insert_eq in Hset. injection Hset as <-.
  split_and!.
  - apply (view_of_slots _ _ (fresh (dom (dicts st)))); cbn;
      rewrite lookup_insert_eq; [done|]. by rewrite insert_empty.
  - apply (view_of_slots _ _ d0); cbn.
    + rewrite lookup_insert_ne by (intros <-; congruence). done.
    + rewrite !lookup_insert_ne by (intros <-; congruence). done.
  - intros <-. congruence.
Qed.

Lemma default_metadata_not_shared_witness :
  view (mkStore (instances (snd two_responses))
          (<[1%nat := {["k" := PyInt 1]}]> (dicts (snd two_responses)))) 1%nat
  = Some (mkHandlerResponse "success" "done" {["k" := PyInt 1]})
  /\ view (mkStore (instances (snd two_responses))
             (<[1%nat := {["k" := PyInt 1]}]> (dicts (snd two_responses)))) 0%nat
     = Some (HandlerResponse_ "success" "done")
  /\ 1%nat <> 0%nat.
Proof.
  apply (default_metadata_not_shared (snd one_response) (snd two_responses)
           (mkStore (instances (snd two_responses))
              (<[1%nat := {["k" := PyInt 1]}]> (dicts (snd two_responses))))
           "success" "done" "k" (PyInt 1) 1%nat 1%nat 0%nat
           (HandlerResponse_ "success" "done")).
  - vm_compute. reflexivity.
  - vm_compute. reflexivity.
  - vm_compute. reflexivity.
  - vm_compute. reflexivity.
Defined.

(** X21. A dictionary passed as [metadata] is stored, not copied: two
    responses constructed with the same dictionary are distinct objects
    that share it, and a later write into the dictionary shows in both. *)
Theorem metadata_argument_is_shared (st st1 st2 st3 : Store)
    (s1 m1 s2 m2 key : string) (value : PyValue) (d a b : loc)
    (m : gmap string PyValue) :
  dicts st !! d = Some m ->
  __init__ s1 m1 (Some d) st = (Returned a, st1) ->
  __init__ s2 m2 (Some d) st1 = (Returned b, st2) ->
  dict_setitem d key value st2 = (Returned tt, st3) ->
  a <> b
  /\ view st2 a = Some (mkHandlerResponse s1 m1 m)
  /\ view st2 b = Some (mkHandlerResponse s2 m2 m)
  /\ view st3 a = Some (mkHandlerResponse s1 m1 (<[key := value]> m))
  /\ view st3 b = Some (mkHandlerResponse s2 m2 (<[key := value]> m)).
Proof.
  intros Hm Ha Hb Hset.
  rewrite init_with in Ha. injection Ha as <- <-.
  rewrite init_with in Hb. injection Hb as <- <-. cbn [instances dicts] in *.
  unfold dict_setitem in Hset. cbn in Hset. rewrite Hm in Hset.
  injection Hset as <-.
  set (a := fresh (dom (instances st))).
  set (b := fresh (dom (<[a := mkInstance (Some s1) (Some m1) (Some d)]> (instances st)))).
  assert (a <> b) as Hab.
  { intros E. pose proof (is_fresh (dom (<[a := mkInstance (Some s1) (Some m1) (Some d)]>
                                          (instances st)))) as Hf.
    fold b in Hf. rewrite <-E in Hf. apply Hf.
    apply elem_of_dom. rewrite lookup_insert_eq. eauto. }
  split_and!; [done|..].
  - apply (view_of_slots _ _ d); cbn; [|done].
    rewrite lookup_insert_ne by done. by rewrite lookup_insert_eq.
  - apply (view_of_slots _ _ d); cbn; [|done]. by rewrite lookup_insert_eq.
  - apply (view_of_slots _ _ d); cbn.
    + rewrite lookup_insert_ne by done. by rewrite lookup_insert_eq.
    + by rewrite lookup_insert_eq.
  - apply (view_of_slots _ _ d); cbn; by rewrite lookup_insert_eq.
Qed.

Lemma metadata_argument_is_shared_witness :
  0%nat <> 1%nat
  /\ view shared_2 0%nat = Some (mkHandlerResponse "success" "one" ∅)
  /\ view shared_2 1%nat = Some (mkHandlerResponse "failed" "two" ∅)
  /\ view shared_3 0%nat
     = Some (mkHandlerResponse "success" "one" (<["k" := PyInt 1]> ∅))
  /\ view shared_3 1%nat
     = Some (mkHandlerResponse "failed" "two" (<["k" := PyInt 1]> ∅)).
Proof.
  apply (metadata_argument_is_shared shared_0 shared_1 shared_2 shared_3
           "success" "one" "failed" "two" "k" (PyInt 1) 0%nat 0%nat 1%nat ∅).
  - vm_compute. reflexivity.
  - vm_compute. reflexivity.
  - vm_compute. reflexivity.
  - vm_compute. reflexivity.
Defined.

(** ** The handlers, continued *)

(** X22. [SystemHandler.process] cannot fail: for every query and world
    it returns the [success] response with the fixed message, having run
    one command of the operating system, [cls] on Windows and [clear]
    anywhere else, and nothing more; no request is sent. *)
Theorem SystemHandler_clears_screen (query_ : string) (w : World) :
  exists command,
    SystemHandler.process query_ w
    = (Returned (HandlerResponse_ "success" "🎶 Terminal screen has been cleared."),
       emit (os_system command) w)
    /\ (command = "cls" <-> platform_system w = "Windows")
    /\ (command = "clear" <-> platform_system w <> "Windows")
    /\ sent (snd (SystemHandler.process query_ w)) = sent w.
Proof.
  unfold SystemHandler.process, SystemHandler._clear_screen, bind, read, effect, ret.
  destruct (String.eqb (platform_system w) "Windows") eqn:E.
  - apply String.eqb_eq in E. exists "cls". split_and!.
    + reflexivity.
    + by split.
    + split; [discriminate|]. intros Hn. by destruct Hn.
    + reflexivity.
  - apply String.eqb_neq in E. exists "clear". split_and!.
    + reflexivity.
    + split; [discriminate|]. intros Hw. by destruct E.
    + by split.
    + reflexivity.
Qed.

(** X23. A missing credential fails softly. With no API key configured,
    [ChatHandler.process] returns a [failed] response carrying the
    configuration error and leaves the world untouched, and
    [GitHandler.process], given a staged diff, does the same after its one
    run of [git]: no request is sent and nothing is raised. *)
Theorem no_credential_fails_softly (query_ : string) (w : World) :
  GEMINI_API_KEY w = None \/ GEMINI_API_KEY w = Some "" ->
  ChatHandler.process query_ w
  = (Returned (HandlerResponse_ "failed" "GEMINI_API_KEY not found in configuration."),
     w)
  /\ forall diff,
       git_diff_staged w = Returned diff -> diff <> "" ->
       GitHandler.process query_ w
       = (Returned
            (HandlerResponse_ "failed" "GEMINI_API_KEY not found in configuration."),
          emit git_diff_command w).
Proof.
  intros Hkey. split.
  - rewrite ChatHandler_process_reply. by rewrite (query_no_key _ _ Hkey).
  - intros diff Hg Hne. rewrite (GitHandler_with_diff query_ diff w Hg Hne).
    by rewrite query_no_key.
Qed.

Lemma no_credential_fails_softly_witness :
  ChatHandler.process "hello" (world None (always connection_refused))
  = (Returned (HandlerResponse_ "failed" "GEMINI_API_KEY not found in configuration."),
     world None (always connection_refused))
  /\ forall diff,
       git_diff_staged (world None (always connection_refused)) = Returned diff ->
       diff <> "" ->
       GitHandler.process "hello" (world None (always connection_refused))
       = (Returned
            (HandlerResponse_ "failed" "GEMINI_API_KEY not found in configuration."),
          emit git_diff_command (world None (always connection_refused))).
Proof.
  apply (no_credential_fails_softly "hello" (world None (always connection_refused))).
  left. reflexivity.
Defined.
